(** * TRADECOINco: the balance ledger and trade session of [src/App.jsx]

    A shallow embedding of the trading logic of the React component [App]:
    the four handlers ([handleSimulatedDeposit], [handleBuy], [handleSell],
    [handleWithdraw]), the Firestore writer [updateBalance] and the
    [onSnapshot] listener that loads the stored balance.

    JavaScript numbers are IEEE-754 binary64 values; they are embedded as
    Rocq's primitive [float], and every statement about amounts and balances
    is about that arithmetic. The handlers are written over the interface of
    the numeric operators they use ([NumberOps]); the statements that do not
    depend on the arithmetic are proved for any such interface. *)

From Stdlib Require Import ZArith QArith Qabs Lqa Lia Bool.
From Stdlib Require Import Floats Uint63 Ascii.
From stdpp Require Import gmap strings.

(** ** The numeric operators used by the handlers *)

Class NumberOps (num : Type) := {
  (** a non-negative integer literal of the source: [0], [100], [1000.00], [68500.00] *)
  num_of_Z : Z -> num;
  num_add : num -> num -> num;      (* x + y  *)
  num_sub : num -> num -> num;      (* x - y  *)
  num_mul : num -> num -> num;      (* x * y  *)
  num_div : num -> num -> num;      (* x / y  *)
  num_ltb : num -> num -> bool;     (* x < y  *)
  num_leb : num -> num -> bool;     (* x <= y *)
  num_eqb : num -> num -> bool;     (* x === y, on numbers *)
  isNaN : num -> bool
}.

Declare Scope js_scope.
Delimit Scope js_scope with js.
Notation "x + y" := (num_add x y) : js_scope.
Notation "x - y" := (num_sub x y) : js_scope.
Notation "x * y" := (num_mul x y) : js_scope.
Notation "x / y" := (num_div x y) : js_scope.
Notation "x <? y" := (num_ltb x y) : js_scope.
Notation "x <=? y" := (num_leb x y) : js_scope.
Notation "x =? y" := (num_eqb x y) : js_scope.

(** JavaScript's own numbers: binary64, round to nearest even. *)
#[export] Instance float_NumberOps : NumberOps float := {
  num_of_Z z := PrimFloat.of_uint63 (Uint63.of_Z z);
  num_add := PrimFloat.add;
  num_sub := PrimFloat.sub;
  num_mul := PrimFloat.mul;
  num_div := PrimFloat.div;
  num_ltb := PrimFloat.ltb;
  num_leb := PrimFloat.leb;
  num_eqb := PrimFloat.eqb;
  isNaN := PrimFloat.is_nan
}.

(** ** Ledger: the validation and arithmetic of the four handlers *)

Module Ledger.

Section Handlers.
Context {num : Type} `{NumberOps num}.

(** [userBalance], the document [{ fiat, coin }]. *)
Record Balance := { fiat : num; coin : num }.

(** The texts passed to [setMessage]. A template literal keeps the numbers
    it interpolates; [formatCurrency] and [formatCoin] only print them. *)
Inductive Message :=
| NoMessage                                        (* '' *)
| EnterValidAmount                                 (* "Please enter a valid amount." *)
| InsufficientUSD                                  (* "Error: Insufficient USD balance to complete the purchase." *)
| InsufficientBTC                                  (* "Error: Insufficient BTC balance to complete the sale." *)
| WithdrawalFailed (minimum have : num)            (* `Withdrawal failed: Minimum withdrawal is ... BTC. You currently have ... BTC.` *)
| DepositSuccessful (amount newFiat : num)         (* `Deposit of ... successful! Your new balance is ....` *)
| PurchaseSuccessful (coinsReceived : num)         (* `Purchase of ... BTC successful!` *)
| SaleSuccessful (fiatReceived : num)              (* `Sale successful. You received ....` *)
| WithdrawalInitiated (withdrawalAmount : num)     (* `Withdrawal of ... BTC initiated! (Simulated)` *)
| TransactionFailed                                (* "Transaction failed due to a database error." *)
| ConnectionError.                                 (* "Error connecting to database." *)

(** What a handler does once it has decided: it either returns
    [setMessage(...)], or calls [updateBalance(newFiat, newCoin, successMessage)]. *)
Inductive Command :=
| SetMessage (m : Message)
| UpdateBalance (newFiat newCoin : num) (successMessage : Message).

(** The rejection reasons, as the messages that carry them. *)
Inductive Rejection := InvalidAmount | InsufficientFiat | InsufficientCoin | BelowMinimum.

Definition rejection (c : Command) : option Rejection :=
  match c with
  | SetMessage EnterValidAmount => Some InvalidAmount
  | SetMessage InsufficientUSD => Some InsufficientFiat
  | SetMessage InsufficientBTC => Some InsufficientCoin
  | SetMessage (WithdrawalFailed _ _) => Some BelowMinimum
  | _ => None
  end.

Definition accepted (c : Command) : option Balance :=
  match c with
  | UpdateBalance newFiat newCoin _ => Some {| fiat := newFiat; coin := newCoin |}
  | SetMessage _ => None
  end.

Variable SIMULATED_COIN_PRICE : num.
Variable MIN_WITHDRAWAL_AMOUNT : num.

Local Open Scope js_scope.

Definition handleSimulatedDeposit (userBalance : Balance) (tradeAmount : num) : Command :=
  if (tradeAmount <=? num_of_Z 0) || isNaN tradeAmount then
    SetMessage EnterValidAmount
  else
    let newFiat := fiat userBalance + tradeAmount in
    UpdateBalance newFiat (coin userBalance) (DepositSuccessful tradeAmount newFiat).

Definition handleBuy (userBalance : Balance) (tradeAmount : num) : Command :=
  if (tradeAmount <=? num_of_Z 0) || isNaN tradeAmount then
    SetMessage EnterValidAmount
  else
    let costInFiat := tradeAmount in
    let coinsReceived := costInFiat / SIMULATED_COIN_PRICE in
    if fiat userBalance <? costInFiat then
      SetMessage InsufficientUSD
    else
      let newFiat := fiat userBalance - costInFiat in
      let newCoin := coin userBalance + coinsReceived in
      UpdateBalance newFiat newCoin (PurchaseSuccessful coinsReceived).

Definition handleSell (userBalance : Balance) (tradeAmount : num) : Command :=
  if (tradeAmount <=? num_of_Z 0) || isNaN tradeAmount then
    SetMessage EnterValidAmount
  else
    let coinsToSell := tradeAmount / SIMULATED_COIN_PRICE in
    if coin userBalance <? coinsToSell then
      SetMessage InsufficientBTC
    else
      let fiatReceived := tradeAmount in
      let newFiat := fiat userBalance + fiatReceived in
      let newCoin := coin userBalance - coinsToSell in
      UpdateBalance newFiat newCoin (SaleSuccessful fiatReceived).

(** [handleWithdraw] never reads [tradeAmount]. *)
Definition handleWithdraw (userBalance : Balance) : Command :=
  if coin userBalance <? MIN_WITHDRAWAL_AMOUNT then
    SetMessage (WithdrawalFailed MIN_WITHDRAWAL_AMOUNT (coin userBalance))
  else
    let withdrawalAmount := coin userBalance in
    let newCoin := num_of_Z 0 in
    UpdateBalance (fiat userBalance) newCoin (WithdrawalInitiated withdrawalAmount).

(** The modal's four actions. *)
Inductive Intent := Deposit | Buy | Sell | Withdraw.

(** The handler an intent runs, on the balance and the amount it reads. *)
Definition apply (current : Balance) (intent : Intent) (amount : num) : Command :=
  match intent with
  | Deposit => handleSimulatedDeposit current amount
  | Buy => handleBuy current amount
  | Sell => handleSell current amount
  | Withdraw => handleWithdraw current
  end.

(** fiat + coin * price, the value of a balance at the given price. *)
Definition total_value (b : Balance) : num :=
  fiat b + coin b * SIMULATED_COIN_PRICE.

End Handlers.

Arguments Balance num : clear implicits.
Arguments Message num : clear implicits.
Arguments Command num : clear implicits.

End Ledger.

(** ** TradeSession: the component state, the store, and the listener *)

Module TradeSession.
Import Ledger.

Section App.
Context {num : Type} `{NumberOps num}.

Definition SIMULATED_COIN_PRICE : num := num_of_Z 68500.
Definition MIN_WITHDRAWAL_AMOUNT : num := num_of_Z 100.

(** *** Values of document fields *)

Inductive JSValue :=
| JSUndefined
| JSNull
| JSBoolean (b : bool)
| JSNumber (x : num)
| JSString (s : string).

(** Truthiness: [undefined], [null], [false], [+0], [-0], [NaN] and [''] are falsy. *)
Definition ToBoolean (v : JSValue) : bool :=
  match v with
  | JSUndefined | JSNull => false
  | JSBoolean b => b
  | JSNumber x => negb ((x =? num_of_Z 0)%js || isNaN x)
  | JSString s => negb (String.eqb s EmptyString)
  end.

(** [v || d] *)
Definition LogicalOr (v d : JSValue) : JSValue :=
  if ToBoolean v then v else d.

(** [docSnap.data()]: an object used as a map from field names to values;
    reading a missing field gives [undefined]. *)
Definition DocumentData := gmap string JSValue.

Definition field (data : DocumentData) (name : string) : JSValue :=
  default JSUndefined (data !! name).

(** The object literal [{ fiat: newFiat, coin: newCoin }]. *)
Definition balance_document (newFiat newCoin : num) : DocumentData :=
  <["fiat" := JSNumber newFiat]> (<["coin" := JSNumber newCoin]> ∅).

(** *** The store *)

(** A document is named by its path: [doc] joins its segments with ['/']. *)
Definition DocumentReference := string.

Variable appId : string.

(** [doc(db, 'artifacts', appId, 'users', userId, 'balances', 'user')], the
    path [artifacts/{appId}/users/{userId}/balances/user]. *)
Definition balanceDocRef (userId : string) : DocumentReference :=
  String.append "artifacts/"
    (String.append appId
       (String.append "/users/" (String.append userId "/balances/user"))).

Inductive Request := SetDoc (ref : DocumentReference) (data : DocumentData).

(** The documents held by Firestore, and the requests this client sent to it. *)
Record Store := {
  documents : gmap DocumentReference DocumentData;
  requests : list Request
}.

(** [setDoc(ref, data)] replaces the whole document. The promise resolves
    ([resolves = true]) or rejects; a rejected write leaves the document. *)
Definition setDoc (ref : DocumentReference) (data : DocumentData)
    (resolves : bool) (s : Store) : Store :=
  {| documents := if resolves then <[ref := data]> (documents s) else documents s;
     requests := requests s ++ [SetDoc ref data] |}.

(** *** The component state ([useState]) *)

Inductive Firestore := firestore.
Inductive ModalType := deposit | buy | sell | withdraw.

Record State := {
  db : option Firestore;               (* null until getFirestore *)
  userId : option string;              (* null until signed in *)
  userBalance : Balance num;
  isAuthReady : bool;
  modal : option ModalType;
  tradeAmount : num;
  message : Message num;
  isLoading : bool
}.

Definition World : Type := State * Store.

(** The initial values given to [useState]. *)
Definition initialState : State :=
  {| db := None; userId := None;
     userBalance := {| fiat := num_of_Z 1000; coin := num_of_Z 0 |};
     isAuthReady := false; modal := None; tradeAmount := num_of_Z 10;
     message := NoMessage; isLoading := false |}.

Definition emptyStore : Store := {| documents := ∅; requests := [] |}.

Definition setMessage (m : Message num) (st : State) : State :=
  {| db := db st; userId := userId st; userBalance := userBalance st;
     isAuthReady := isAuthReady st; modal := modal st;
     tradeAmount := tradeAmount st; message := m; isLoading := isLoading st |}.

Definition setUserBalance (b : Balance num) (st : State) : State :=
  {| db := db st; userId := userId st; userBalance := b;
     isAuthReady := isAuthReady st; modal := modal st;
     tradeAmount := tradeAmount st; message := message st; isLoading := isLoading st |}.

Definition setIsLoading (l : bool) (st : State) : State :=
  {| db := db st; userId := userId st; userBalance := userBalance st;
     isAuthReady := isAuthReady st; modal := modal st;
     tradeAmount := tradeAmount st; message := message st; isLoading := l |}.

Definition setTradeAmount (a : num) (st : State) : State :=
  {| db := db st; userId := userId st; userBalance := userBalance st;
     isAuthReady := isAuthReady st; modal := modal st;
     tradeAmount := a; message := message st; isLoading := isLoading st |}.

Definition setModal (m : option ModalType) (st : State) : State :=
  {| db := db st; userId := userId st; userBalance := userBalance st;
     isAuthReady := isAuthReady st; modal := m;
     tradeAmount := tradeAmount st; message := message st; isLoading := isLoading st |}.

(** [db && userId], as the identity to write under: [!db] holds for [null],
    [!userId] for [null] and for the empty string. *)
Definition ready (st : State) : option string :=
  match db st, userId st with
  | Some _, Some uid => if String.eqb uid EmptyString then None else Some uid
  | _, _ => None
  end.

(** [updateBalance], from the call to the end of its [finally] block.
    [resolves] says whether the awaited [setDoc] resolved or threw. *)
Definition updateBalance (newFiat newCoin : num) (successMessage : Message num)
    (resolves : bool) (w : World) : World :=
  let (st, store) := w in
  match ready st with
  | None => w
  | Some uid =>
      let st := setIsLoading true st in
      let ref := balanceDocRef uid in
      let store := setDoc ref (balance_document newFiat newCoin) resolves store in
      let st := if resolves then setMessage successMessage st
                else setMessage TransactionFailed st in
      (setModal None (setIsLoading false st), store)
  end.

Definition run (c : Command num) (resolves : bool) (w : World) : World :=
  match c with
  | SetMessage m => (setMessage m (fst w), snd w)
  | UpdateBalance newFiat newCoin successMessage =>
      updateBalance newFiat newCoin successMessage resolves w
  end.

(** One action of the modal: the handler, on the [userBalance] and
    [tradeAmount] it reads from the state. *)
Definition execute (intent : Intent) (resolves : bool) (w : World) : World :=
  run (apply SIMULATED_COIN_PRICE MIN_WITHDRAWAL_AMOUNT
         (userBalance (fst w)) intent (tradeAmount (fst w)))
      resolves w.

(** *** The [onSnapshot] listener *)

Definition as_number (v : JSValue) : option num :=
  match v with
  | JSNumber x => Some x
  | _ => None
  end.

Definition defaultBalance : Balance num :=
  {| fiat := num_of_Z 1000; coin := num_of_Z 0 |}.

(** The [next] callback, for the subscription on [ref]. [docSnap] is [None]
    when [docSnap.exists()] is false. The handlers compute on numbers, so a
    snapshot with a truthy field that is not a number has no image here. *)
Definition onSnapshot_next (ref : DocumentReference) (docSnap : option DocumentData)
    (resolves : bool) (w : World) : option World :=
  let (st, store) := w in
  match docSnap with
  | Some data =>
      match as_number (LogicalOr (field data "fiat") (JSNumber (num_of_Z 0))),
            as_number (LogicalOr (field data "coin") (JSNumber (num_of_Z 0))) with
      | Some f, Some c =>
          Some (setMessage NoMessage (setUserBalance {| fiat := f; coin := c |} st), store)
      | _, _ => None
      end
  | None =>
      let st := setUserBalance defaultBalance st in
      let store :=
        setDoc ref (balance_document (num_of_Z 1000) (num_of_Z 0)) resolves store in
      Some (setMessage NoMessage st, store)
  end.

(** The [error] callback. *)
Definition onSnapshot_error (w : World) : World :=
  (setMessage ConnectionError (fst w), snd w).

(** The messages that report a failure to the user. *)
Definition failure_notice (m : Message num) : bool :=
  match m with
  | EnterValidAmount | InsufficientUSD | InsufficientBTC | WithdrawalFailed _ _
  | TransactionFailed | ConnectionError => true
  | NoMessage | DepositSuccessful _ _ | PurchaseSuccessful _ | SaleSuccessful _
  | WithdrawalInitiated _ => false
  end.

End App.

Arguments JSValue num : clear implicits.
Arguments DocumentData num : clear implicits.
Arguments Request num : clear implicits.
Arguments Store num : clear implicits.
Arguments State num : clear implicits.
Arguments World num : clear implicits.

End TradeSession.

(** ** The rest of the component: effects, the modal's actions, events *)

Module Component.
Import Ledger TradeSession.

Section Component.
Context {num : Type} `{NumberOps num}.
Variable appId : string.

Definition setDb (d : option Firestore) (st : State num) : State num :=
  {| db := d; userId := userId st; userBalance := userBalance st;
     isAuthReady := isAuthReady st; modal := modal st;
     tradeAmount := tradeAmount st; message := message st; isLoading := isLoading st |}.

Definition setUserId (u : option string) (st : State num) : State num :=
  {| db := db st; userId := u; userBalance := userBalance st;
     isAuthReady := isAuthReady st; modal := modal st;
     tradeAmount := tradeAmount st; message := message st; isLoading := isLoading st |}.

Definition setIsAuthReady (r : bool) (st : State num) : State num :=
  {| db := db st; userId := userId st; userBalance := userBalance st;
     isAuthReady := r; modal := modal st;
     tradeAmount := tradeAmount st; message := message st; isLoading := isLoading st |}.

(** The first effect. Without [firebaseConfig] it logs and returns; with it,
    it stores the Firestore handle ([setAuth] stores a handle that nothing reads). *)
Definition initializeFirebase (firebaseConfig : bool) (st : State num) : State num :=
  if firebaseConfig then setDb (Some firestore) st else st.

(** The [onAuthStateChanged] callback: [user] is [null] or carries [user.uid].
    Without a user it starts a sign-in, whose success calls it again. *)
Definition onAuthStateChanged_next (user : option string) (st : State num) : State num :=
  setIsAuthReady true
    (match user with
     | Some uid => setUserId (Some uid) st
     | None => st
     end).

(** The second effect returns at [if (!db || !userId || !isAuthReady)];
    otherwise it subscribes to the user's balance document:
    [subscription st] is the document the effect subscribes to when it runs
    in the state [st]. The component keeps no record of a listener that has
    failed since, and neither does this state. *)
Definition subscription (st : State num) : option DocumentReference :=
  match ready st with
  | Some uid => if isAuthReady st then Some (balanceDocRef appId uid) else None
  | None => None
  end.

(** *** The modal *)

Definition intent_of (type : ModalType) : Intent :=
  match type with
  | deposit => Deposit
  | buy => Buy
  | sell => Sell
  | withdraw => Withdraw
  end.

(** [disabled] of the action button:
    [isLoading || (type === 'withdraw' && userBalance.coin < MIN_WITHDRAWAL_AMOUNT)]. *)
Definition actionDisabled (type : ModalType) (st : State num) : bool :=
  isLoading st ||
  match type with
  | withdraw => (coin (userBalance st) <? MIN_WITHDRAWAL_AMOUNT)%js
  | _ => false
  end.

(** [actionHandler], with the modal's own [amount]. For deposit, buy and sell
    it is [() => { setTradeAmount(amount); handleX(); }]: the handler is the
    closure of the current render, so it reads the [tradeAmount] of the state
    before [setTradeAmount] takes effect. For withdraw it is [handleWithdraw]. *)
Definition actionHandler (type : ModalType) (amount : num) (resolves : bool)
    (w : World num) : World num :=
  match type with
  | withdraw => execute appId Withdraw resolves w
  | _ =>
      let w' := execute appId (intent_of type) resolves w in
      (setTradeAmount amount (fst w'), snd w')
  end.

(** A click on the action button: a disabled button does nothing. *)
Definition onClick (type : ModalType) (amount : num) (resolves : bool)
    (w : World num) : World num :=
  if actionDisabled type (fst w) then w else actionHandler type amount resolves w.

(** *** Events *)

Definition ModalType_eqb (a b : ModalType) : bool :=
  match a, b with
  | deposit, deposit | buy, buy | sell, sell | withdraw, withdraw => true
  | _, _ => false
  end.

Inductive Event :=
| FirebaseInitialized (firebaseConfig : bool)
| AuthStateChanged (user : option string)
| Snapshot (docSnap : option (DocumentData num)) (resolves : bool)
| SnapshotError
| OpenModal (type : ModalType)                      (* setModal('deposit'), ... *)
| CloseModal                                        (* onClose *)
| Click (type : ModalType) (amount : num) (resolves : bool).

(** One event; [None] when it is not followed here: a listener callback in a
    state where the effect does not subscribe, a click without the modal of
    that type, or a snapshot that [onSnapshot_next] has no image for (a
    truthy fiat or coin field that is not a number). A callback after the
    listener's error is followed, although Firestore sends none. *)
Definition step (e : Event) (w : World num) : option (World num) :=
  match e with
  | FirebaseInitialized c => Some (initializeFirebase c (fst w), snd w)
  | AuthStateChanged user => Some (onAuthStateChanged_next user (fst w), snd w)
  | Snapshot docSnap resolves =>
      match subscription (fst w) with
      | Some ref => onSnapshot_next ref docSnap resolves w
      | None => None
      end
  | SnapshotError =>
      match subscription (fst w) with
      | Some _ => Some (onSnapshot_error w)
      | None => None
      end
  | OpenModal type => Some (setModal (Some type) (fst w), snd w)
  | CloseModal => Some (setModal None (fst w), snd w)
  | Click type amount resolves =>
      match modal (fst w) with
      | Some shown =>
          if ModalType_eqb shown type then Some (onClick type amount resolves w) else None
      | None => None
      end
  end.

(** A sequence of events, as far as each one can occur. *)
Fixpoint run_events (es : list Event) (w : World num) : option (World num) :=
  match es with
  | [] => Some w
  | e :: es =>
      match step e w with
      | Some w' => run_events es w'
      | None => None
      end
  end.

(** The worlds the component reaches from its initial state and an empty
    store through the events that [step] follows: the snapshots carry any
    document whose fiat and coin fields are each a number or a falsy value. *)
Inductive reachable : World num -> Prop :=
| reachable_initial : reachable (initialState, emptyStore)
| reachable_step w e w' : reachable w -> step e w = Some w' -> reachable w'.

(** A snapshot that carries the document the store holds. *)
Definition from_store (e : Event) (w : World num) : Prop :=
  match e with
  | Snapshot docSnap _ =>
      forall ref, subscription (fst w) = Some ref -> docSnap = documents (snd w) !! ref
  | _ => True
  end.

(** The worlds reached when this client is the only writer: every snapshot
    carries what the store holds. *)
Inductive reachable_alone : World num -> Prop :=
| alone_initial : reachable_alone (initialState, emptyStore)
| alone_step w e w' :
    reachable_alone w -> from_store e w -> step e w = Some w' -> reachable_alone w'.

(** A write of this component: the two fields fiat and coin, into the
    balance document of a non-empty user id. *)
Definition balance_write (ref : DocumentReference) (data : DocumentData num) : Prop :=
  exists uid f c,
    uid <> EmptyString /\ ref = balanceDocRef appId uid /\ data = balance_document f c.

(** Every request sent and every document held is such a write. *)
Definition store_schema (s : Store num) : Prop :=
  (forall ref data, In (SetDoc ref data) (requests s) -> balance_write ref data) /\
  (forall ref data, documents s !! ref = Some data -> balance_write ref data).

End Component.

Arguments Event num : clear implicits.

End Component.

(** ** The placeholder wallet address *)

Module Wallet.

Definition chars : string :=
  "123456789ABCDEFGHJKLMNPQRSTUVWXYZabcdefghijkmnopqrstuvwxyz".

(** [s.charAt(i)]: the one-character string at [i], or the empty string when
    [i] is out of range. *)
Definition charAt (s : string) (i : nat) : string :=
  match String.get i s with
  | Some c => String c EmptyString
  | None => EmptyString
  end.

(** [generatePlaceholderAddress]. [draw i] is the value of
    [Math.floor(Math.random() * chars.length)] in iteration [i] of the loop. *)
Definition generatePlaceholderAddress (draw : nat -> nat) : string :=
  fold_left (fun address i => String.append address (charAt chars (draw i)))
            (seq 0 33) "1"%string.

End Wallet.

(** ** Reading a binary64 value through its specification *)

(** [0 <= x], on the specification of [x]: a zero of either sign, a positive
    finite number or [+Infinity]. *)
Definition sf_nonneg (s : spec_float) : bool := SFleb (S754_zero false) s.

(** Neither an infinity nor NaN. *)
Definition sf_finite (s : spec_float) : bool :=
  match s with S754_zero _ | S754_finite _ _ _ => true | _ => false end.

(** ** Stored numbers *)

(** A number that is [>= 0] or [NaN]. *)
Definition nonneg_or_nan (x : float) : bool :=
  ((0 <=? x)%float || PrimFloat.is_nan x).

(** [>= 0] or [NaN], on the specification. *)
Definition sf_nonneg_or_nan (s : spec_float) : bool :=
  sf_nonneg s || match s with S754_nan => true | _ => false end.

(** Every document held has two number fields, each [>= 0] or [NaN]. *)
Definition stored_nonneg_or_nan (s : TradeSession.Store float) : Prop :=
  forall ref data, TradeSession.documents s !! ref = Some data ->
    exists f c, data = TradeSession.balance_document f c /\
                nonneg_or_nan f = true /\ nonneg_or_nan c = true.

(** ** Balances of JavaScript numbers *)

(** Both fields are [>= 0]. *)
Definition nonneg_balance (b : Ledger.Balance float) : bool :=
  ((0 <=? Ledger.fiat b) && (0 <=? Ledger.coin b))%float.

(** Both fields are finite: neither [Infinity], [-Infinity] nor [NaN]. *)
Definition finite_balance (b : Ledger.Balance float) : bool :=
  PrimFloat.is_finite (Ledger.fiat b) && PrimFloat.is_finite (Ledger.coin b).

(** [===] on both fields. *)
Definition same_balance (b1 b2 : Ledger.Balance float) : bool :=
  ((Ledger.fiat b1 =? Ledger.fiat b2) && (Ledger.coin b1 =? Ledger.coin b2))%float.

(** ** The exact value of a binary64 number *)

(** A finite binary64 number is an integer multiple of [2^-1074], the
    smallest positive number. [SFunits s] is that integer, for the
    specification [s] of the number; it is 0 for an infinity and for NaN. *)
Definition SFunits (s : spec_float) : Z :=
  match s with
  | S754_finite sg m e => cond_Zopp sg (Z.pos m * 2 ^ (e + 1074))%Z
  | _ => 0%Z
  end.

(** [r] is a rounding of the value [V], given in units of [2^-1074]: a
    mantissa [m3] at an exponent [e3] with [V] less than one unit of [2^e3]
    away, returned as a zero, a finite number or, beyond the largest
    exponent, an infinity. *)
Definition rounds_to (V : Z) (r : spec_float) : Prop :=
  exists m3 e3 : Z,
    (0 <= m3)%Z /\ (-1074 <= e3)%Z /\
    (V < (m3 + 1) * 2 ^ (e3 + 1074))%Z /\
    (m3 * 2 ^ (e3 + 1074) <= V + 2 ^ (e3 + 1074))%Z /\
    (m3 = 0 -> e3 = -1074)%Z /\
    r = match m3 with
        | Z0 => S754_zero false
        | Z.pos m => if (e3 <=? emax - prec)%Z then S754_finite false m e3
                     else S754_infinity false
        | Z.neg _ => S754_nan
        end.

(** [2^-1074], the smallest positive binary64 number. *)
Definition eta : Q := 1 # (2 ^ 1074)%positive.

(** [2^-52], the distance from 1 to the next binary64 number. *)
Definition epsilon : Q := 1 # (2 ^ 52)%positive.

(** The exact value of a finite binary64 number, as a rational. *)
Definition value (x : float) : Q := inject_Z (SFunits (Prim2SF x)) * eta.

(** A bound on one unit in the last place of a finite [x]:
    [2^-52 * |x| + 2^-1074]. *)
Definition rounding (x : float) : Q := epsilon * Qabs (value x) + eta.

(** The total value [fiat + coin * price] of a balance of finite numbers,
    evaluated exactly. *)
Definition exact_total_value (price : float) (b : Ledger.Balance float) : Q :=
  value (Ledger.fiat b) + value (Ledger.coin b) * value price.

(** ** Facts about binary64 comparisons *)

Module FloatFacts.

Lemma SFcompare_refl (s : spec_float) :
  s <> S754_nan -> SFcompare s s = Some Eq.
Proof.
  destruct s as [[]|[]| |[] m e]; simpl; try congruence; intros _.
  - now rewrite Z.compare_refl, Pos.compare_cont_refl.
  - now rewrite Z.compare_refl, Pos.compare_cont_refl.
Qed.

Lemma is_nan_spec (x : float) :
  PrimFloat.is_nan x = true <-> Prim2SF x = S754_nan.
Proof.
  unfold PrimFloat.is_nan. rewrite FloatAxioms.eqb_spec. unfold SFeqb. split.
  - intros E. destruct (Prim2SF x) eqn:Hx; try reflexivity;
      rewrite SFcompare_refl in E by discriminate; discriminate.
  - intros ->. reflexivity.
Qed.

Lemma is_nan_false (x : float) :
  PrimFloat.is_nan x = false <-> Prim2SF x <> S754_nan.
Proof.
  split.
  - intros N E. apply is_nan_spec in E. congruence.
  - intros N. destruct (PrimFloat.is_nan x) eqn:E; [|reflexivity].
    apply is_nan_spec in E. contradiction.
Qed.

Lemma Prim2SF_zero : Prim2SF 0%float = S754_zero false.
Proof. reflexivity. Qed.

(** [0 < a] is the negation of the handlers' guard [a <= 0 || isNaN(a)]. *)
Lemma positive_iff_valid (a : float) :
  (0 <? a)%float = negb ((a <=? 0)%float || PrimFloat.is_nan a).
Proof.
  destruct (PrimFloat.is_nan a) eqn:N.
  - apply is_nan_spec in N. rewrite FloatAxioms.ltb_spec, N, orb_true_r. reflexivity.
  - rewrite orb_false_r, FloatAxioms.ltb_spec, FloatAxioms.leb_spec, Prim2SF_zero.
    apply is_nan_false in N. unfold SFltb, SFleb.
    destruct (Prim2SF a) as [[]|[]| |[] m e]; try reflexivity; congruence.
Qed.

(** Equal operands are never strictly ordered. *)
Lemma eqb_not_ltb (x y : float) :
  (x =? y)%float = true -> (x <? y)%float = false.
Proof.
  rewrite FloatAxioms.eqb_spec, FloatAxioms.ltb_spec. unfold SFeqb, SFltb.
  destruct (SFcompare (Prim2SF x) (Prim2SF y)) as [[]|]; congruence.
Qed.

End FloatFacts.

(** ** Signs of rounded results *)

Module SpecFloatSigns.

Lemma shr_1_nonneg mrs : (0 <= shr_m mrs -> 0 <= shr_m (shr_1 mrs))%Z.
Proof.
  destruct mrs as [m r s]. destruct m as [|[p|p|]|[p|p|]]; simpl; lia.
Qed.

Lemma iter_pos_shr_1_nonneg p : forall mrs,
  (0 <= shr_m mrs -> 0 <= shr_m (SpecFloat.iter_pos shr_1 p mrs))%Z.
Proof.
  induction p as [p IH|p IH|]; intros mrs Hm; simpl.
  - apply IH, IH, shr_1_nonneg, Hm.
  - apply IH, IH, Hm.
  - apply shr_1_nonneg, Hm.
Qed.

Lemma shr_nonneg mrs e n :
  (0 <= shr_m mrs -> 0 <= shr_m (fst (shr mrs e n)))%Z.
Proof.
  intros Hm. destruct n; simpl; try assumption.
  now apply iter_pos_shr_1_nonneg.
Qed.

Lemma shr_record_of_loc_m m l : shr_m (shr_record_of_loc m l) = m.
Proof. destruct l as [|[]]; reflexivity. Qed.

Lemma shr_fexp_nonneg m e l :
  (0 <= m -> 0 <= shr_m (fst (shr_fexp prec emax m e l)))%Z.
Proof.
  intros Hm. unfold shr_fexp. apply shr_nonneg.
  now rewrite shr_record_of_loc_m.
Qed.

Lemma round_nearest_even_nonneg m l :
  (0 <= m -> 0 <= round_nearest_even m l)%Z.
Proof.
  intros Hm. destruct l as [|[]]; simpl; try lia.
  destruct (Z.even m); lia.
Qed.

Lemma binary_round_aux_nonneg mx ex lx :
  (0 <= mx)%Z -> sf_nonneg (binary_round_aux prec emax false mx ex lx) = true.
Proof.
  intros Hm. unfold binary_round_aux.
  pose proof (shr_fexp_nonneg mx ex lx Hm) as H1.
  destruct (shr_fexp prec emax mx ex lx) as [mrs' e'].
  simpl in H1.
  pose proof (shr_fexp_nonneg _ e' loc_Exact
                (round_nearest_even_nonneg _ (loc_of_shr_record mrs') H1)) as H2.
  destruct (shr_fexp prec emax _ e' loc_Exact) as [mrs'' e''].
  simpl in H2.
  destruct (shr_m mrs'') as [|m|m]; try reflexivity.
  - destruct (e'' <=? emax - prec)%Z; reflexivity.
  - lia.
Qed.

Lemma binary_round_nonneg m e :
  sf_nonneg (binary_round prec emax false m e) = true.
Proof.
  unfold binary_round.
  destruct (shl_align m e _) as [mz ez].
  apply binary_round_aux_nonneg. lia.
Qed.

Lemma binary_normalize_nonneg m e :
  (0 <= m)%Z -> sf_nonneg (binary_normalize prec emax m e false) = true.
Proof.
  intros Hm. destruct m as [|p|p]; simpl.
  - reflexivity.
  - apply binary_round_nonneg.
  - lia.
Qed.

Lemma SFadd_nonneg x y :
  sf_nonneg x = true -> sf_nonneg y = true ->
  sf_nonneg (SFadd prec emax x y) = true.
Proof.
  destruct x as [[]|[]| |[] mx ex]; destruct y as [[]|[]| |[] my ey];
    try discriminate; try reflexivity; intros _ _.
  unfold SFadd, cond_Zopp. apply binary_normalize_nonneg. lia.
Qed.


Lemma SFdiv_core_binary_nonneg m1 e1 m2 e2 :
  (0 <= fst (fst (SFdiv_core_binary prec emax (Z.pos m1) e1 (Z.pos m2) e2)))%Z.
Proof.
  unfold SFdiv_core_binary.
  set (s := (e1 - e2 - _)%Z).
  set (m' := match s with Z0 => Z.pos m1 | Z.pos _ => Z.shiftl (Z.pos m1) s | Z.neg _ => 0%Z end).
  assert (Hm' : (0 <= m')%Z).
  { subst m'. destruct s; try lia. apply Z.shiftl_nonneg. lia. }
  pose proof (Z.div_pos m' (Z.pos m2) Hm' ltac:(lia)) as Hq.
  unfold Z.div in Hq.
  destruct (Z.div_eucl m' (Z.pos m2)) as [q r]. exact Hq.
Qed.

Lemma SFdiv_nonneg x my ey :
  sf_nonneg x = true ->
  sf_nonneg (SFdiv prec emax x (S754_finite false my ey)) = true.
Proof.
  destruct x as [[]|[]| |[] mx ex]; try discriminate; try reflexivity; intros _.
  unfold SFdiv.
  pose proof (SFdiv_core_binary_nonneg mx ex my ey) as Hq.
  destruct (SFdiv_core_binary prec emax (Z.pos mx) ex (Z.pos my) ey) as [[mz ez] lz].
  simpl in Hq. simpl xorb. now apply binary_round_aux_nonneg.
Qed.

(** Mantissa sizes. *)
Lemma digits2_pos_bounds m :
  (2 ^ (Z.pos (digits2_pos m) - 1) <= Z.pos m < 2 ^ Z.pos (digits2_pos m))%Z.
Proof.
  induction m as [m IH|m IH|]; simpl digits2_pos.
  - rewrite Pos2Z.inj_succ.
    replace (Z.succ (Z.pos (digits2_pos m)) - 1)%Z with (Z.succ (Z.pos (digits2_pos m) - 1))%Z by lia.
    rewrite !Z.pow_succ_r by lia. lia.
  - rewrite Pos2Z.inj_succ.
    replace (Z.succ (Z.pos (digits2_pos m)) - 1)%Z with (Z.succ (Z.pos (digits2_pos m) - 1))%Z by lia.
    rewrite !Z.pow_succ_r by lia. lia.
  - simpl. lia.
Qed.

Lemma shl_align_value m e e' :
  (e' <= e)%Z ->
  Z.pos (fst (shl_align m e e')) = (Z.pos m * 2 ^ (e - e'))%Z.
Proof.
  intros Hle. unfold shl_align.
  destruct (e' - e)%Z as [|d|d] eqn:Hd.
  - replace (e - e')%Z with 0%Z by lia. simpl. lia.
  - lia.
  - simpl fst. change (Pos.iter xO m d) with (shift_pos d m).
    rewrite shift_pos_correct. replace (e - e')%Z with (Z.pos d) by lia.
    rewrite Z.pow_pos_fold. lia.
Qed.

(** Two canonical positive numbers that are not in the order [x < y]
    have a non-negative difference of aligned mantissas. *)
Lemma aligned_difference_nonneg m1 e1 m2 e2 :
  bounded prec emax m1 e1 = true -> bounded prec emax m2 e2 = true ->
  SFltb (S754_finite false m1 e1) (S754_finite false m2 e2) = false ->
  (0 <= Z.pos (fst (shl_align m1 e1 (Z.min e1 e2)))
        - Z.pos (fst (shl_align m2 e2 (Z.min e1 e2))))%Z.
Proof.
  unfold bounded, canonical_mantissa, fexp, SpecFloat.emin, SFltb. simpl SFcompare.
  intros B1 B2 Hlt.
  apply andb_true_iff in B1 as [C1 _]. apply andb_true_iff in B2 as [C2 _].
  apply Z.eqb_eq in C1, C2.
  rewrite !shl_align_value by lia.
  pose proof (digits2_pos_bounds m1) as D1.
  pose proof (digits2_pos_bounds m2) as D2.
  destruct (Z.compare_spec e1 e2) as [E|E|E]; try discriminate.
  - subst e2. rewrite Z.min_id, Z.sub_diag. simpl.
    rewrite Pos.compare_cont_spec in Hlt. simpl in Hlt.
    destruct (Pos.compare_spec m1 m2); try discriminate; lia.
  - rewrite Z.min_r by lia. rewrite Z.sub_diag.
    change prec with 53%Z in *. change emax with 1024%Z in *.
    assert (Hd1 : Z.pos (digits2_pos m1) = 53%Z) by lia.
    assert (Hd2 : (Z.pos (digits2_pos m2) <= 53)%Z) by lia.
    rewrite Hd1 in D1.
    assert (H2 : (2 ^ Z.pos (digits2_pos m2) <= 2 ^ 53)%Z)
      by (apply Z.pow_le_mono_r; lia).
    assert (H3 : (2 ^ 1 <= 2 ^ (e1 - e2))%Z) by (apply Z.pow_le_mono_r; lia).
    change (2 ^ (53 - 1))%Z with 4503599627370496%Z in D1.
    change (2 ^ 53)%Z with 9007199254740992%Z in *.
    change (2 ^ 1)%Z with 2%Z in H3. change (2 ^ 0)%Z with 1%Z. nia.
Qed.

Lemma SFsub_nonneg x y :
  valid_binary x = true -> valid_binary y = true ->
  sf_nonneg x = true -> sf_nonneg y = true -> sf_finite x = true ->
  SFltb x y = false ->
  sf_nonneg (SFsub prec emax x y) = true.
Proof.
  destruct x as [[]|[]| |[] mx ex]; destruct y as [[]|[]| |[] my ey];
    try discriminate; try reflexivity; intros Vx Vy _ _ _ Hlt.
  unfold SFsub, cond_Zopp. apply binary_normalize_nonneg.
  now apply aligned_difference_nonneg.
Qed.

End SpecFloatSigns.

Module FloatSigns.
Import SpecFloatSigns FloatFacts.
Local Open Scope float_scope.

Lemma leb_zero_spec x : (0 <=? x) = sf_nonneg (Prim2SF x).
Proof. rewrite FloatAxioms.leb_spec. reflexivity. Qed.

Lemma is_finite_spec x :
  PrimFloat.is_finite x = true -> sf_finite (Prim2SF x) = true.
Proof.
  unfold PrimFloat.is_finite, PrimFloat.is_infinity, PrimFloat.is_nan.
  rewrite !FloatAxioms.eqb_spec, FloatAxioms.abs_spec.
  change (Prim2SF infinity) with (S754_infinity false).
  destruct (Prim2SF x) as [[]|[]| |[] m e]; simpl; try reflexivity; discriminate.
Qed.

Lemma positive_finite_spec p :
  (0 <? p) = true -> PrimFloat.is_finite p = true ->
  exists m e, Prim2SF p = S754_finite false m e.
Proof.
  intros P F. apply is_finite_spec in F. rewrite FloatAxioms.ltb_spec in P.
  change (Prim2SF 0) with (S754_zero false) in P.
  destruct (Prim2SF p) as [[]|[]| |[] m e]; try discriminate; eauto.
Qed.

Lemma positive_nonneg a : (0 <? a) = true -> (0 <=? a) = true.
Proof.
  rewrite FloatAxioms.ltb_spec, FloatAxioms.leb_spec. unfold SFltb, SFleb.
  destruct (SFcompare (Prim2SF 0) (Prim2SF a)) as [[]|]; congruence.
Qed.

Lemma add_nonneg x y :
  (0 <=? x) = true -> (0 <=? y) = true -> (0 <=? x + y) = true.
Proof.
  rewrite !leb_zero_spec, FloatAxioms.add_spec. apply SFadd_nonneg.
Qed.

Lemma div_nonneg a p :
  (0 <=? a) = true -> (0 <? p) = true -> PrimFloat.is_finite p = true ->
  (0 <=? a / p) = true.
Proof.
  intros A P F. destruct (positive_finite_spec p P F) as (m & e & Hp).
  rewrite leb_zero_spec in *. rewrite FloatAxioms.div_spec, Hp. now apply SFdiv_nonneg.
Qed.

Lemma sub_nonneg x y :
  PrimFloat.is_finite x = true -> (0 <=? x) = true -> (0 <=? y) = true ->
  (x <? y) = false -> (0 <=? x - y) = true.
Proof.
  intros F X Y L. rewrite leb_zero_spec in *. rewrite FloatAxioms.sub_spec.
  rewrite FloatAxioms.ltb_spec in L.
  apply SFsub_nonneg; auto using Prim2SF_valid, is_finite_spec.
Qed.

End FloatSigns.

(** ** Rounding, on the specification of binary64 *)

Module Rounding.
Import SpecFloatSigns FloatFacts.

Local Open Scope Z_scope.

(** *** Shifts are divisions by powers of two *)

Lemma shr_1_div2 mrs : 0 <= shr_m mrs -> shr_m (shr_1 mrs) = shr_m mrs / 2.
Proof.
  destruct mrs as [m r s]. simpl. intros Hm.
  destruct m as [|[p|p|]|p]; try lia; simpl shr_m.
  - reflexivity.
  - apply Z.div_unique with 1; lia.
  - apply Z.div_unique with 0; lia.
  - reflexivity.
Qed.

Lemma iter_pos_shr_1_div p : forall mrs,
  0 <= shr_m mrs ->
  shr_m (SpecFloat.iter_pos shr_1 p mrs) = shr_m mrs / 2 ^ Z.pos p.
Proof.
  assert (N : forall mrs, 0 <= shr_m mrs -> 0 <= shr_m (shr_1 mrs)).
  { intros mrs H. rewrite shr_1_div2 by exact H. apply Z.div_pos; lia. }
  assert (P : forall q, 0 < 2 ^ Z.pos q) by (intros; apply Z.pow_pos_nonneg; lia).
  induction p as [p IH|p IH|]; intros mrs Hm; simpl SpecFloat.iter_pos.
  - assert (H1 : 0 <= shr_m (shr_1 mrs)) by auto.
    assert (H2 : 0 <= shr_m (SpecFloat.iter_pos shr_1 p (shr_1 mrs))).
    { rewrite IH by exact H1. apply Z.div_pos; [exact H1|apply P]. }
    rewrite IH by exact H2. rewrite IH by exact H1. rewrite shr_1_div2 by exact Hm.
    rewrite !Z.div_div by (try apply P; lia).
    f_equal. change 2 with (2 ^ 1) at 1. rewrite <- !Z.pow_add_r by lia. f_equal. lia.
  - assert (H2 : 0 <= shr_m (SpecFloat.iter_pos shr_1 p mrs)).
    { rewrite IH by exact Hm. apply Z.div_pos; [exact Hm|apply P]. }
    rewrite IH by exact H2. rewrite IH by exact Hm.
    rewrite !Z.div_div by (try apply P; lia).
    f_equal. rewrite <- Z.pow_add_r by lia. f_equal. lia.
  - rewrite shr_1_div2 by exact Hm. reflexivity.
Qed.

(** [shr] divides the mantissa by a power of two and raises the exponent. *)
Lemma shr_spec mrs e n :
  0 <= shr_m mrs ->
  exists a, 0 <= a /\ (a = n \/ (a = 0 /\ n <= 0)) /\
    shr_m (fst (shr mrs e n)) = shr_m mrs / 2 ^ a /\ snd (shr mrs e n) = e + a.
Proof.
  intros Hm. destruct n as [|p|p]; simpl.
  - exists 0. rewrite Z.div_1_r. repeat split; try lia. 
  - exists (Z.pos p). rewrite iter_pos_shr_1_div by exact Hm. repeat split; lia.
  - exists 0. rewrite Z.div_1_r. repeat split; lia.
Qed.

Lemma two_floors (mz m1 m2 m3 A1 A2 : Z) :
  0 < A1 -> 0 < A2 -> m1 = mz / A1 -> m1 <= m2 <= m1 + 1 -> m3 = m2 / A2 ->
  mz < (m3 + 1) * (A1 * A2) /\ m3 * (A1 * A2) <= mz + A1 * A2.
Proof.
  intros H1 H2 E1 Hm E3.
  pose proof (Z.mul_div_le mz A1 H1) as L1.
  pose proof (Z.mul_succ_div_gt mz A1 H1) as U1.
  pose proof (Z.mul_div_le m2 A2 H2) as L2.
  pose proof (Z.mul_succ_div_gt m2 A2 H2) as U2.
  rewrite <- E1 in L1, U1. rewrite <- E3 in L2, U2.
  split; nia.
Qed.

Lemma Zdigits2_bounds (m : Z) :
  0 < m -> 2 ^ (Zdigits2 m - 1) <= m < 2 ^ Zdigits2 m.
Proof.
  destruct m as [|p|p]; try lia. intros _. apply digits2_pos_bounds.
Qed.

Lemma shr_fexp_spec m e l :
  0 <= m ->
  exists a, 0 <= a /\
    shr_m (fst (shr_fexp prec emax m e l)) = m / 2 ^ a /\
    snd (shr_fexp prec emax m e l) = e + a /\
    e + a = Z.max e (fexp prec emax (Zdigits2 m + e)).
Proof.
  intros Hm. unfold shr_fexp.
  destruct (shr_spec (shr_record_of_loc m l) e
              (fexp prec emax (Zdigits2 m + e) - e)) as (a & Ha & Hn & Hq & He).
  { now rewrite shr_record_of_loc_m. }
  rewrite shr_record_of_loc_m in Hq.
  exists a. repeat split; try assumption. lia.
Qed.

Lemma round_nearest_even_bounds m l :
  m <= round_nearest_even m l <= m + 1.
Proof.
  destruct l as [|[]]; simpl; try lia. destruct (Z.even m); lia.
Qed.

(** A mantissa below [2 ^ a] that was shifted by [a] digits down to the
    canonical exponent sits at the smallest exponent. *)
Lemma shifted_to_zero m e a :
  0 <= m -> (0 < m \/ e <= -1074) -> 0 <= a -> m / 2 ^ a = 0 ->
  e + a = Z.max e (fexp prec emax (Zdigits2 m + e)) ->
  e + a = -1074.
Proof.
  intros Hm Hc Ha Hq He. unfold fexp, SpecFloat.emin in He.
  change (3 - emax - prec) with (-1074) in He. change prec with 53 in He.
  assert (P : 0 < 2 ^ a) by (apply Z.pow_pos_nonneg; lia).
  apply Z.div_small_iff in Hq; [|lia].
  destruct Hq as [Hq|Hq]; [|lia].
  destruct (Z.eq_dec m 0) as [->|Hne].
  - simpl Zdigits2 in He. lia.
  - pose proof (Zdigits2_bounds m ltac:(lia)) as D.
    assert (Hd : Zdigits2 m - 1 < a).
    { apply (Z.pow_lt_mono_r_iff 2); lia. }
    assert (Hp : 1 <= Zdigits2 m) by (destruct m; simpl; lia).
    lia.
Qed.

(** What [binary_round_aux] returns for a non-negative mantissa: the
    mantissa [m3] at an exponent [e3 >= ez], one unit of [2 ^ e3] around the
    value it was given. *)
Lemma binary_round_aux_spec mz ez l :
  0 <= mz ->
  exists m3 e3,
    0 <= m3 /\ ez <= e3 /\ -1074 <= e3 /\
    mz < (m3 + 1) * 2 ^ (e3 - ez) /\
    m3 * 2 ^ (e3 - ez) <= mz + 2 ^ (e3 - ez) /\
    ((0 < mz \/ ez <= -1074) -> m3 = 0 -> e3 = -1074) /\
    binary_round_aux prec emax false mz ez l =
      match m3 with
      | Z0 => S754_zero false
      | Z.pos m => if e3 <=? emax - prec then S754_finite false m e3
                   else S754_infinity false
      | Z.neg _ => S754_nan
      end.
Proof.
  intros Hm. unfold binary_round_aux.
  destruct (shr_fexp_spec mz ez l Hm) as (a1 & Ha1 & Hq1 & He1 & Hx1).
  destruct (shr_fexp prec emax mz ez l) as [mrs1 e1]. simpl in Hq1, He1.
  pose proof (round_nearest_even_bounds (shr_m mrs1) (loc_of_shr_record mrs1)) as Hr.
  set (m2 := round_nearest_even (shr_m mrs1) (loc_of_shr_record mrs1)) in *.
  assert (P1 : 0 < 2 ^ a1) by (apply Z.pow_pos_nonneg; lia).
  assert (Hm1 : 0 <= shr_m mrs1) by (rewrite Hq1; apply Z.div_pos; lia).
  assert (Hm2 : 0 <= m2) by lia.
  destruct (shr_fexp_spec m2 e1 loc_Exact Hm2) as (a2 & Ha2 & Hq2 & He2 & Hx2).
  destruct (shr_fexp prec emax m2 e1 loc_Exact) as [mrs2 e3]. simpl in Hq2, He2.
  assert (P2 : 0 < 2 ^ a2) by (apply Z.pow_pos_nonneg; lia).
  exists (shr_m mrs2), e3.
  assert (Hpow : 2 ^ (e3 - ez) = 2 ^ a1 * 2 ^ a2).
  { rewrite <- Z.pow_add_r by lia. f_equal. lia. }
  destruct (two_floors mz (shr_m mrs1) m2 (shr_m mrs2) (2 ^ a1) (2 ^ a2))
    as [F1 F2]; auto.
  assert (Hfexp : forall d, -1074 <= fexp prec emax d).
  { intros d. unfold fexp, SpecFloat.emin. change (3 - emax - prec) with (-1074). lia. }
  pose proof (Hfexp (Zdigits2 mz + ez)). pose proof (Hfexp (Zdigits2 m2 + e1)).
  repeat split.
  - rewrite Hq2. apply Z.div_pos; lia.
  - lia.
  - lia.
  - rewrite Hpow. exact F1.
  - rewrite Hpow. exact F2.
  - intros Hc H3. rewrite H3 in Hq2. symmetry in Hq2.
    destruct (Z.eq_dec m2 0) as [E2|N2].
    + assert (E1 : shr_m mrs1 = 0) by lia.
      rewrite E1 in Hq1. symmetry in Hq1.
      pose proof (shifted_to_zero mz ez a1 Hm Hc Ha1 Hq1 ltac:(lia)) as Z1.
      rewrite E2 in Hx2. simpl Zdigits2 in Hx2. unfold fexp, SpecFloat.emin in Hx2.
      change (3 - emax - prec) with (-1074) in Hx2. change prec with 53 in Hx2. lia.
    + pose proof (shifted_to_zero m2 e1 a2 Hm2 ltac:(lia) Ha2 Hq2 ltac:(lia)). lia.
Qed.

(** *** Values in units of [2^-1074] *)

Lemma bounded_spec m e :
  bounded prec emax m e = true ->
  -1074 <= e <= 971 /\ Z.pos m < 2 ^ 53 /\ (-1074 < e -> 2 ^ 52 <= Z.pos m).
Proof.
  unfold bounded, canonical_mantissa, fexp, SpecFloat.emin.
  change (3 - emax - prec) with (-1074). change (emax - prec) with 971.
  change prec with 53.
  intros B. apply andb_true_iff in B as [C E].
  apply Z.eqb_eq in C. apply Z.leb_le in E.
  pose proof (digits2_pos_bounds m) as D.
  assert (Hd : Z.pos (digits2_pos m) <= 53) by lia.
  assert (H53 : 2 ^ Z.pos (digits2_pos m) <= 2 ^ 53) by (apply Z.pow_le_mono_r; lia).
  repeat split; try lia.
  intros He. assert (Hd' : Z.pos (digits2_pos m) = 53) by lia.
  rewrite Hd' in D. change (53 - 1) with 52 in D. lia.
Qed.

(** One unit in the last place of a valid number is at most [2^-52] of the
    number, or the smallest positive number. *)
Lemma bounded_ulp m e :
  bounded prec emax m e = true ->
  2 ^ 52 * 2 ^ (e + 1074) <= Z.pos m * 2 ^ (e + 1074) + 2 ^ 52.
Proof.
  intros B. destruct (bounded_spec m e B) as (He & Hm & Hn).
  assert (P : 0 < 2 ^ (e + 1074)) by (apply Z.pow_pos_nonneg; lia).
  destruct (Z.eq_dec e (-1074)) as [->|Hne].
  - change (2 ^ (-1074 + 1074)) with 1. lia.
  - specialize (Hn ltac:(lia)). nia.
Qed.

Lemma shl_align_fst m e e' :
  Z.pos (fst (shl_align m e e')) = Z.pos m * 2 ^ (e - Z.min e e').
Proof.
  destruct (Z.le_gt_cases e' e) as [L|G].
  - rewrite shl_align_value by exact L. now rewrite Z.min_r.
  - rewrite Z.min_l by lia. rewrite Z.sub_diag. unfold shl_align.
    destruct (e' - e) eqn:E; try lia; simpl; lia.
Qed.

Lemma shl_align_snd m e e' : snd (shl_align m e e') = Z.min e e'.
Proof.
  unfold shl_align. destruct (e' - e) eqn:E; simpl; lia.
Qed.

Lemma binary_round_rounds m e :
  -1074 <= e ->
  rounds_to (Z.pos m * 2 ^ (e + 1074)) (binary_round prec emax false m e).
Proof.
  intros He. unfold binary_round.
  set (t := fexp prec emax (Z.pos (digits2_pos m) + e)).
  assert (Ht : -1074 <= t).
  { unfold t, fexp, SpecFloat.emin. change (3 - emax - prec) with (-1074). lia. }
  pose proof (shl_align_fst m e t) as Hf. pose proof (shl_align_snd m e t) as Hs.
  destruct (shl_align m e t) as [mz ez]. simpl in Hf, Hs.
  destruct (binary_round_aux_spec (Z.pos mz) ez loc_Exact ltac:(lia))
    as (m3 & e3 & H0 & H1 & H2 & H3 & H4 & H5 & H6).
  exists m3, e3.
  assert (Hez : -1074 <= ez <= e) by lia.
  assert (EV : Z.pos m * 2 ^ (e + 1074) = Z.pos mz * 2 ^ (ez + 1074)).
  { rewrite Hf, <- Hs, <- Z.mul_assoc, <- Z.pow_add_r by lia. do 2 f_equal. lia. }
  assert (EG : 2 ^ (e3 + 1074) = 2 ^ (e3 - ez) * 2 ^ (ez + 1074)).
  { rewrite <- Z.pow_add_r by lia. f_equal. lia. }
  assert (P : 0 < 2 ^ (ez + 1074)) by (apply Z.pow_pos_nonneg; lia).
  rewrite EV, EG. repeat split; try assumption; try nia.
Qed.

Lemma binary_normalize_rounds m e :
  0 <= m -> -1074 <= e ->
  rounds_to (m * 2 ^ (e + 1074)) (binary_normalize prec emax m e false).
Proof.
  intros Hm He. destruct m as [|p|p]; try lia.
  - exists 0, (-1074). simpl. repeat split; lia.
  - apply binary_round_rounds, He.
Qed.

(** The rounded result is within one unit in its last place of the value. *)
Lemma rounds_to_error V r :
  rounds_to V r -> valid_binary r = true -> sf_finite r = true ->
  2 ^ 52 * Z.abs (SFunits r - V) <= SFunits r + 2 ^ 52.
Proof.
  intros (m3 & e3 & H0 & H1 & H2 & H3 & H4 & ->) Vr Fr.
  destruct m3 as [|m|m]; try lia.
  - rewrite H4 in H2, H3 by reflexivity. change (2 ^ (-1074 + 1074)) with 1 in *.
    simpl SFunits. lia.
  - destruct (e3 <=? emax - prec); [|discriminate].
    simpl in Vr. pose proof (bounded_ulp m e3 Vr) as U.
    simpl SFunits. lia.
Qed.

(** The rounded result is not below a number that the value reaches. *)
Lemma rounds_to_not_below V r my ey :
  rounds_to V r -> valid_binary r = true ->
  bounded prec emax my ey = true ->
  Z.pos my * 2 ^ (ey + 1074) <= V ->
  SFltb r (S754_finite false my ey) = false.
Proof.
  intros (m3 & e3 & H0 & H1 & H2 & H3 & H4 & ->) Vr By Hy.
  destruct (bounded_spec my ey By) as (Hey & Hmy & Hny).
  assert (Py : 0 < 2 ^ (ey + 1074)) by (apply Z.pow_pos_nonneg; lia).
  destruct m3 as [|m|m]; try lia.
  - rewrite H4 in H2 by reflexivity. change (2 ^ (-1074 + 1074)) with 1 in *. nia.
  - destruct (e3 <=? emax - prec); [|reflexivity].
    simpl in Vr. destruct (bounded_spec m e3 Vr) as (He & Hm & Hn).
    assert (P : 0 < 2 ^ (e3 + 1074)) by (apply Z.pow_pos_nonneg; lia).
    unfold SFltb. simpl SFcompare.
    destruct (Z.compare_spec e3 ey) as [E|E|E]; try reflexivity.
    + subst ey. rewrite Pos.compare_cont_spec. simpl.
      destruct (Pos.compare_spec m my); try reflexivity. nia.
    + exfalso. specialize (Hny ltac:(lia)).
      assert (G : 2 * 2 ^ (e3 + 1074) <= 2 ^ (ey + 1074)).
      { change 2 with (2 ^ 1) at 1. rewrite <- Z.pow_add_r by lia.
        apply Z.pow_le_mono_r; lia. }
      change (2 ^ 53) with (2 * 2 ^ 52) in Hm. nia.
Qed.

(** *** Addition and subtraction *)

Lemma SFunits_finite m e :
  SFunits (S754_finite false m e) = Z.pos m * 2 ^ (e + 1074).
Proof. reflexivity. Qed.

Lemma aligned_units m e e' :
  -1074 <= e' <= e ->
  Z.pos (fst (shl_align m e e')) * 2 ^ (e' + 1074) = Z.pos m * 2 ^ (e + 1074).
Proof.
  intros He. rewrite shl_align_value by lia.
  rewrite <- Z.mul_assoc, <- Z.pow_add_r by lia. do 2 f_equal. lia.
Qed.

Lemma SFadd_rounds mx ex my ey :
  bounded prec emax mx ex = true -> bounded prec emax my ey = true ->
  rounds_to (Z.pos mx * 2 ^ (ex + 1074) + Z.pos my * 2 ^ (ey + 1074))
            (SFadd prec emax (S754_finite false mx ex) (S754_finite false my ey)).
Proof.
  intros Bx By0.
  destruct (bounded_spec mx ex Bx) as (Hx & _). destruct (bounded_spec my ey By0) as (Hy & _).
  unfold SFadd, cond_Zopp.
  rewrite <- (aligned_units mx ex (Z.min ex ey)) by lia.
  rewrite <- (aligned_units my ey (Z.min ex ey)) by lia.
  rewrite <- Z.mul_add_distr_r.
  apply binary_normalize_rounds; lia.
Qed.

Lemma binary_round_aux_opp m e l :
  binary_round_aux prec emax true m e l = SFopp (binary_round_aux prec emax false m e l).
Proof.
  unfold binary_round_aux.
  destruct (shr_fexp prec emax m e l) as [mrs1 e1].
  destruct (shr_fexp prec emax _ e1 loc_Exact) as [mrs2 e2].
  destruct (shr_m mrs2); try reflexivity.
  destruct (e2 <=? emax - prec); reflexivity.
Qed.

Lemma binary_round_opp m e :
  binary_round prec emax true m e = SFopp (binary_round prec emax false m e).
Proof.
  unfold binary_round. destruct (shl_align m e _) as [mz ez]. apply binary_round_aux_opp.
Qed.

Lemma SFunits_opp r : SFunits (SFopp r) = - SFunits r.
Proof. destruct r as [s|s| |[] m e]; simpl; lia. Qed.

Lemma valid_binary_opp r : valid_binary (SFopp r) = valid_binary r.
Proof. destruct r as [s|s| |s m e]; reflexivity. Qed.

Lemma sf_finite_opp r : sf_finite (SFopp r) = sf_finite r.
Proof. destruct r as [s|s| |s m e]; reflexivity. Qed.

Lemma rounds_to_nonneg V r : rounds_to V r -> 0 <= SFunits r.
Proof.
  intros (m3 & e3 & H0 & H1 & H2 & H3 & H4 & ->).
  destruct m3 as [|m|m]; simpl; try lia.
  destruct (e3 <=? emax - prec); simpl; lia.
Qed.

(** The result of [binary_normalize] is within one unit in its last place of
    the value it was given, whatever the sign. *)
Lemma binary_normalize_error m e :
  -1074 <= e ->
  valid_binary (binary_normalize prec emax m e false) = true ->
  sf_finite (binary_normalize prec emax m e false) = true ->
  2 ^ 52 * Z.abs (SFunits (binary_normalize prec emax m e false) - m * 2 ^ (e + 1074))
    <= Z.abs (SFunits (binary_normalize prec emax m e false)) + 2 ^ 52.
Proof.
  intros He. destruct m as [|p|p].
  - intros _ _. simpl. lia.
  - intros Vr Fr. pose proof (binary_round_rounds p e He) as R.
    pose proof (rounds_to_error _ _ R Vr Fr). pose proof (rounds_to_nonneg _ _ R).
    simpl binary_normalize in *. lia.
  - simpl binary_normalize. rewrite binary_round_opp, valid_binary_opp, sf_finite_opp, SFunits_opp.
    intros Vr Fr. pose proof (binary_round_rounds p e He) as R.
    pose proof (rounds_to_error _ _ R Vr Fr). pose proof (rounds_to_nonneg _ _ R).
    change (Z.neg p) with (- Z.pos p). lia.
Qed.

Lemma signed_aligned_units s m e e' :
  -1074 <= e' <= e ->
  cond_Zopp s (Z.pos (fst (shl_align m e e'))) * 2 ^ (e' + 1074)
    = SFunits (S754_finite s m e).
Proof.
  intros He. simpl SFunits. destruct s; simpl cond_Zopp.
  - rewrite Z.mul_opp_l. f_equal. now apply aligned_units.
  - now apply aligned_units.
Qed.

(** Addition of two finite numbers: the result is within one unit in its
    last place of the sum. *)
Lemma SFadd_error x y :
  valid_binary x = true -> valid_binary y = true ->
  sf_finite x = true -> sf_finite y = true ->
  valid_binary (SFadd prec emax x y) = true ->
  sf_finite (SFadd prec emax x y) = true ->
  2 ^ 52 * Z.abs (SFunits (SFadd prec emax x y) - (SFunits x + SFunits y))
    <= Z.abs (SFunits (SFadd prec emax x y)) + 2 ^ 52.
Proof.
  destruct x as [sx|sx| |sx mx ex]; destruct y as [sy|sy| |sy my ey];
    try discriminate; intros Vx Vy _ _.
  - intros _ _. destruct sx, sy; simpl; lia.
  - intros _ _. simpl SFadd. simpl (SFunits (S754_zero _)).
    rewrite Z.add_0_l, Z.sub_diag. simpl Z.abs at 1. lia.
  - intros _ _. simpl SFadd. simpl (SFunits (S754_zero _)).
    rewrite Z.add_0_r, Z.sub_diag. simpl Z.abs at 1. lia.
  - simpl in Vx, Vy.
    destruct (bounded_spec mx ex Vx) as (Hx & _). destruct (bounded_spec my ey Vy) as (Hy & _).
    unfold SFadd.
    rewrite <- (signed_aligned_units sx mx ex (Z.min ex ey)) by lia.
    rewrite <- (signed_aligned_units sy my ey (Z.min ex ey)) by lia.
    rewrite <- Z.mul_add_distr_r.
    apply binary_normalize_error. lia.
Qed.

(** A sum of numbers [>= 0] is not below its second operand. *)
Lemma SFadd_not_below x y :
  valid_binary x = true -> valid_binary y = true ->
  sf_nonneg x = true -> sf_nonneg y = true ->
  valid_binary (SFadd prec emax x y) = true ->
  SFltb (SFadd prec emax x y) y = false.
Proof.
  destruct x as [[]|[]| |[] mx ex]; destruct y as [[]|[]| |[] my ey];
    try discriminate; intros Vx Vy _ _ Vr; try reflexivity;
    try (unfold SFltb; simpl SFadd; rewrite SFcompare_refl by discriminate; reflexivity).
  apply rounds_to_not_below with
    (V := Z.pos mx * 2 ^ (ex + 1074) + Z.pos my * 2 ^ (ey + 1074)); auto.
  - now apply SFadd_rounds.
  - assert (0 <= Z.pos mx * 2 ^ (ex + 1074))
      by (apply Z.mul_nonneg_nonneg; [lia|apply Z.pow_nonneg; lia]). lia.
Qed.

(** Subtraction of two finite numbers. *)
Lemma SFsub_error x y :
  valid_binary x = true -> valid_binary y = true ->
  sf_finite x = true -> sf_finite y = true ->
  valid_binary (SFsub prec emax x y) = true ->
  sf_finite (SFsub prec emax x y) = true ->
  2 ^ 52 * Z.abs (SFunits (SFsub prec emax x y) - (SFunits x - SFunits y))
    <= Z.abs (SFunits (SFsub prec emax x y)) + 2 ^ 52.
Proof.
  destruct x as [sx|sx| |sx mx ex]; destruct y as [sy|sy| |sy my ey];
    try discriminate; intros Vx Vy _ _.
  - intros _ _. destruct sx, sy; simpl; lia.
  - intros _ _. destruct sy; simpl; lia.
  - intros _ _. simpl SFsub. simpl (SFunits (S754_zero _)).
    rewrite Z.sub_0_r, Z.sub_diag. simpl Z.abs at 1. lia.
  - simpl in Vx, Vy.
    destruct (bounded_spec mx ex Vx) as (Hx & _). destruct (bounded_spec my ey Vy) as (Hy & _).
    unfold SFsub.
    rewrite <- (signed_aligned_units sx mx ex (Z.min ex ey)) by lia.
    rewrite <- (signed_aligned_units sy my ey (Z.min ex ey)) by lia.
    rewrite <- Z.mul_sub_distr_r.
    apply binary_normalize_error. lia.
Qed.

(** *** Division *)

(** The quotient of the mantissas that [SFdiv_core_binary] hands to the
    rounding step. *)
Lemma SFdiv_core_binary_spec ma ea mp ep :
  exists q e' l s,
    SFdiv_core_binary prec emax (Z.pos ma) ea (Z.pos mp) ep = (q, e', l) /\
    0 <= s /\ s = ea - ep - e' /\
    q = (Z.pos ma * 2 ^ s) / Z.pos mp /\
    (q = 0 -> e' <= -1074).
Proof.
  unfold SFdiv_core_binary.
  set (d1 := Zdigits2 (Z.pos ma)). set (d2 := Zdigits2 (Z.pos mp)).
  set (e' := Z.min (fexp prec emax (d1 + ea - (d2 + ep))) (ea - ep)).
  set (s := ea - ep - e').
  set (m' := match s with Z0 => Z.pos ma | Z.pos _ => Z.shiftl (Z.pos ma) s | Z.neg _ => 0 end).
  assert (Hs : 0 <= s) by (unfold s, e'; lia).
  assert (Hm' : m' = Z.pos ma * 2 ^ s).
  { unfold m'. clearbody s. destruct s as [|p|p]; try lia.
    apply Z.shiftl_mul_pow2. lia. }
  pose proof (Z.div_eucl_eq m' (Z.pos mp) ltac:(lia)) as Hdiv.
  assert (Hq : fst (Z.div_eucl m' (Z.pos mp)) = m' / Z.pos mp) by reflexivity.
  destruct (Z.div_eucl m' (Z.pos mp)) as [q r]. simpl in Hq.
  exists q, e', (new_location (Z.pos mp) r), s.
  repeat split; try assumption; try lia.
  - now rewrite Hq, Hm'.
  - intros Hq0. rewrite Hq0 in Hq. symmetry in Hq.
    apply Z.div_small_iff in Hq; [|lia]. destruct Hq as [Hq|Hq]; [|lia].
    rewrite Hm' in Hq.
    destruct (Z.le_gt_cases e' (-1074)) as [L|G]; [exact L|exfalso].
    pose proof (Zdigits2_bounds (Z.pos ma) ltac:(lia)) as D1.
    pose proof (Zdigits2_bounds (Z.pos mp) ltac:(lia)) as D2.
    fold d1 in D1. fold d2 in D2.
    assert (Hd1 : 1 <= d1) by (unfold d1; simpl; lia).
    assert (Hd2 : 1 <= d2) by (unfold d2; simpl; lia).
    assert (Hs' : 53 - d1 + d2 <= s).
    { unfold s, e', fexp, SpecFloat.emin in *.
      change (3 - emax - prec) with (-1074) in *. change prec with 53 in *. lia. }
    assert (P : 2 ^ d2 <= 2 ^ (d1 - 1) * 2 ^ s).
    { rewrite <- Z.pow_add_r by lia. apply Z.pow_le_mono_r; lia. }
    assert (0 < 2 ^ s) by (apply Z.pow_pos_nonneg; lia).
    nia.
Qed.

(** Two powers of two shifted by the same, possibly negative, number of
    digits. *)
Lemma scale_pow (s a k : Z) :
  0 <= s -> 0 <= a -> 0 <= s + k -> 0 <= a + k ->
  exists c d, 0 < c /\ 0 < d /\
    c * 2 ^ (s + k) = d * 2 ^ s /\ c * 2 ^ (a + k) = d * 2 ^ a.
Proof.
  intros Hs Ha Hsk Hak. destruct (Z.le_gt_cases 0 k) as [K|K].
  - exists 1, (2 ^ k). rewrite !Z.pow_add_r by lia.
    assert (0 < 2 ^ k) by (apply Z.pow_pos_nonneg; lia). repeat split; lia.
  - exists (2 ^ (- k)), 1.
    assert (0 < 2 ^ (- k)) by (apply Z.pow_pos_nonneg; lia).
    rewrite <- !Z.pow_add_r by lia.
    replace (- k + (s + k)) with s by lia. replace (- k + (a + k)) with a by lia.
    repeat split; lia.
Qed.

(** Division of a finite number [>= 0] by a positive finite number: the
    result times the divisor is within one unit in the result's last place,
    times the divisor, of the dividend. *)
Lemma SFdiv_error x mp ep :
  valid_binary x = true -> bounded prec emax mp ep = true ->
  sf_nonneg x = true -> sf_finite x = true ->
  valid_binary (SFdiv prec emax x (S754_finite false mp ep)) = true ->
  sf_finite (SFdiv prec emax x (S754_finite false mp ep)) = true ->
  2 ^ 52 * Z.abs (SFunits (SFdiv prec emax x (S754_finite false mp ep))
                    * (Z.pos mp * 2 ^ (ep + 1074))
                  - SFunits x * 2 ^ 1074)
    <= (SFunits (SFdiv prec emax x (S754_finite false mp ep)) + 2 ^ 52)
       * (Z.pos mp * 2 ^ (ep + 1074)).
Proof.
  intros Vx Bp Nx Fx.
  destruct (bounded_spec mp ep Bp) as (Hep & _).
  assert (Pp : 0 < 2 ^ (ep + 1074)) by (apply Z.pow_pos_nonneg; lia).
  destruct x as [[]|[]| |[] ma ea]; try discriminate; intros Vr Fr;
    try (simpl SFdiv; simpl SFunits; simpl Z.abs; nia).
  simpl in Vx. destruct (bounded_spec ma ea Vx) as (Hea & _).
  revert Vr Fr. unfold SFdiv.
  destruct (SFdiv_core_binary_spec ma ea mp ep) as (q & e' & l & s & -> & Hs & Es & Hq & Hz).
  simpl xorb.
  assert (Hq0 : 0 <= q).
  { rewrite Hq. apply Z.div_pos; [|lia].
    apply Z.mul_nonneg_nonneg; [lia|apply Z.pow_nonneg; lia]. }
  destruct (binary_round_aux_spec q e' l Hq0)
    as (m3 & e3 & H0 & H1 & H2 & H3 & H4 & H5 & ->).
  intros Vr Fr.
  assert (Ps : 0 < 2 ^ s) by (apply Z.pow_pos_nonneg; lia).
  assert (Pa : 0 < 2 ^ (e3 - e')) by (apply Z.pow_pos_nonneg; lia).
  pose proof (Z.mul_div_le (Z.pos ma * 2 ^ s) (Z.pos mp) ltac:(lia)) as L1.
  pose proof (Z.mul_succ_div_gt (Z.pos ma * 2 ^ s) (Z.pos mp) ltac:(lia)) as U1.
  rewrite <- Hq in L1, U1.
  (* the bound on mantissas, before scaling *)
  assert (D1 : Z.pos ma * 2 ^ s < (m3 + 1) * Z.pos mp * 2 ^ (e3 - e')) by nia.
  assert (D2 : m3 * Z.pos mp * 2 ^ (e3 - e') <= Z.pos ma * 2 ^ s + Z.pos mp * 2 ^ (e3 - e')) by nia.
  destruct (scale_pow s (e3 - e') (e' + ep + 2148)) as (c & d & Hc & Hd & Ec & Ed); try lia.
  replace (s + (e' + ep + 2148)) with (ea + 1074 + 1074) in Ec by lia.
  replace (e3 - e' + (e' + ep + 2148)) with (e3 + 1074 + (ep + 1074)) in Ed by lia.
  rewrite Z.pow_add_r in Ec, Ed by lia.
  set (G := 2 ^ (e3 + 1074)) in *. set (P := 2 ^ (ep + 1074)) in *.
  set (A := 2 ^ (ea + 1074)) in *. set (U := 2 ^ 1074) in *.
  assert (PG : 0 < G) by (apply Z.pow_pos_nonneg; lia).
  assert (PA : 0 < A) by (apply Z.pow_pos_nonneg; lia).
  assert (PU : 0 < U) by (apply Z.pow_pos_nonneg; lia).
  assert (S1 : Z.pos ma * A * U < (m3 + 1) * G * (Z.pos mp * P)).
  { apply (Z.mul_lt_mono_pos_l c); [exact Hc|].
    replace (c * (Z.pos ma * A * U)) with (Z.pos ma * (c * (A * U))) by ring.
    replace (c * ((m3 + 1) * G * (Z.pos mp * P))) with ((m3 + 1) * Z.pos mp * (c * (G * P))) by ring.
    rewrite Ec, Ed. nia. }
  assert (S2 : m3 * G * (Z.pos mp * P) <= Z.pos ma * A * U + G * (Z.pos mp * P)).
  { apply (Z.mul_le_mono_pos_l _ _ c); [exact Hc|].
    replace (c * (m3 * G * (Z.pos mp * P))) with (m3 * Z.pos mp * (c * (G * P))) by ring.
    replace (c * (Z.pos ma * A * U + G * (Z.pos mp * P)))
      with (Z.pos ma * (c * (A * U)) + Z.pos mp * (c * (G * P))) by ring.
    rewrite Ec, Ed. nia. }
  assert (UL : 2 ^ 52 * G <= SFunits (match m3 with
      | Z0 => S754_zero false
      | Z.pos m => if e3 <=? emax - prec then S754_finite false m e3 else S754_infinity false
      | Z.neg _ => S754_nan end) + 2 ^ 52
      /\ SFunits (match m3 with
      | Z0 => S754_zero false
      | Z.pos m => if e3 <=? emax - prec then S754_finite false m e3 else S754_infinity false
      | Z.neg _ => S754_nan end) = m3 * G).
  { destruct m3 as [|m|m]; try lia.
    - unfold G. rewrite H5 by (try reflexivity; lia).
      change (2 ^ (-1074 + 1074)) with 1. simpl. lia.
    - destruct (e3 <=? emax - prec); [|discriminate]. simpl in Vr.
      split; [apply (bounded_ulp m e3 Vr)|reflexivity]. }
  destruct UL as [UL EU]. rewrite EU in *.
  simpl SFunits. fold A.
  assert (PP : 0 < Z.pos mp * P) by lia.
  set (Y := Z.pos mp * P) in *. nia.
Qed.

End Rounding.

(** ** Exact values: from units to rationals *)

Module ExactValues.

(** [value] on a few numbers. *)
Remark value_examples :
  (value 1000 == 1000 /\ value 0.5 == 1 # 2 /\ value (-3) == -3 /\
   value 0x1p-1074 == eta)%Q.
Proof. vm_compute. repeat split; reflexivity. Qed.

Lemma eta_pos : (0 < eta)%Q.
Proof. reflexivity. Qed.

Lemma eta_scale : (inject_Z (2 ^ 1074) * eta == 1)%Q.
Proof. vm_compute. reflexivity. Qed.

Lemma Qabs_inject_Z (z : Z) : Qabs (inject_Z z) = inject_Z (Z.abs z).
Proof. reflexivity. Qed.

Lemma units_error_Q (D u : Z) :
  (2 ^ 52 * Z.abs D <= Z.abs u + 2 ^ 52)%Z ->
  (Qabs (inject_Z D * eta) <= epsilon * Qabs (inject_Z u * eta) + eta)%Q.
Proof.
  intros H.
  rewrite !Qabs_Qmult, !Qabs_inject_Z, (Qabs_pos eta) by (apply Qlt_le_weak, eta_pos).
  rewrite Zle_Qle, inject_Z_plus, inject_Z_mult in H.
  pose proof eta_pos as E.
  change (inject_Z (2 ^ 52)) with (4503599627370496 # 1)%Q in H.
  change epsilon with (1 # 4503599627370496)%Q.
  generalize dependent (inject_Z (Z.abs D)). intros X H.
  generalize dependent (inject_Z (Z.abs u)). intros Y H.
  generalize dependent eta. intros e E.
  assert (T : (0 <= (Y + (4503599627370496 # 1) - (4503599627370496 # 1) * X) * e)%Q).
  { apply Qmult_le_0_compat; lra. }
  lra.
Qed.

Lemma units_error_Q2 (D u y : Z) :
  (0 <= y)%Z ->
  (2 ^ 52 * Z.abs D <= (u + 2 ^ 52) * y)%Z ->
  (Qabs (inject_Z D * (eta * eta))
     <= (epsilon * (inject_Z u * eta) + eta) * (inject_Z y * eta))%Q.
Proof.
  intros Hy H. pose proof eta_pos as E.
  assert (E2 : (0 <= eta * eta)%Q) by (apply Qmult_le_0_compat; lra).
  rewrite Qabs_Qmult, Qabs_inject_Z, (Qabs_pos (eta * eta)) by exact E2.
  rewrite Zle_Qle, inject_Z_mult, inject_Z_mult, inject_Z_plus in H.
  rewrite Zle_Qle in Hy.
  change (inject_Z (2 ^ 52)) with (4503599627370496 # 1)%Q in H.
  change (inject_Z 0) with 0%Q in Hy.
  change epsilon with (1 # 4503599627370496)%Q.
  generalize dependent (inject_Z (Z.abs D)). intros X H.
  generalize dependent (inject_Z u). intros U H.
  generalize dependent (inject_Z y). intros Y Hy H.
  generalize dependent eta. intros e E E2.
  assert (T : (0 <= ((U + (4503599627370496 # 1)) * Y - (4503599627370496 # 1) * X) * (e * e))%Q).
  { apply Qmult_le_0_compat; lra. }
  lra.
Qed.

End ExactValues.

(** ** The rounding of one operation, on JavaScript numbers *)

Module FloatRounding.
Import SpecFloatSigns FloatFacts FloatSigns Rounding ExactValues.

Local Open Scope float_scope.

Lemma sf_finite_is_finite x :
  sf_finite (Prim2SF x) = true -> PrimFloat.is_finite x = true.
Proof.
  unfold PrimFloat.is_finite, PrimFloat.is_infinity, PrimFloat.is_nan.
  rewrite !FloatAxioms.eqb_spec, FloatAxioms.abs_spec.
  change (Prim2SF infinity) with (S754_infinity false).
  destruct (Prim2SF x) as [[]|[]| |[] m e] eqn:E; try discriminate; intros _;
    unfold SFeqb; rewrite SFcompare_refl by discriminate; reflexivity.
Qed.

Lemma finite_sum (x y : float) :
  PrimFloat.is_finite (x + y) = true ->
  PrimFloat.is_finite x = true /\ PrimFloat.is_finite y = true.
Proof.
  intros F. apply is_finite_spec in F. rewrite FloatAxioms.add_spec in F.
  split; apply sf_finite_is_finite;
    destruct (Prim2SF x) as [[]|[]| |[] mx ex]; destruct (Prim2SF y) as [[]|[]| |[] my ey];
    try reflexivity; discriminate.
Qed.

Lemma nonneg_value (x : float) : (0 <=? x) = true -> (0 <= value x)%Q.
Proof.
  rewrite leb_zero_spec. unfold value. intros N.
  apply Qmult_le_0_compat; [|apply Qlt_le_weak, eta_pos].
  change 0%Q with (inject_Z 0). rewrite <- Zle_Qle.
  destruct (Prim2SF x) as [[]|[]| |[] m e]; try discriminate; simpl; lia.
Qed.

Lemma finite_difference (x y : float) :
  PrimFloat.is_finite (x - y) = true ->
  PrimFloat.is_finite x = true /\ PrimFloat.is_finite y = true.
Proof.
  intros F. apply is_finite_spec in F. rewrite FloatAxioms.sub_spec in F.
  split; apply sf_finite_is_finite;
    destruct (Prim2SF x) as [[]|[]| |[] mx ex]; destruct (Prim2SF y) as [[]|[]| |[] my ey];
    try reflexivity; discriminate.
Qed.

(** [x + y] for finite [x], [y] and a finite result: the result is within
    [rounding (x + y)] of the sum. *)
Lemma add_rounding (x y : float) :
  PrimFloat.is_finite x = true -> PrimFloat.is_finite y = true ->
  PrimFloat.is_finite (x + y) = true ->
  (Qabs (value (x + y) - (value x + value y)) <= rounding (x + y))%Q.
Proof.
  intros Fx Fy Fr. apply is_finite_spec in Fx, Fy, Fr.
  pose proof (Prim2SF_valid (x + y)) as Vr.
  unfold rounding, value. rewrite FloatAxioms.add_spec in *. unfold SF64add in *.
  pose proof (SFadd_error _ _ (Prim2SF_valid x) (Prim2SF_valid y) Fx Fy Vr Fr) as E.
  apply units_error_Q in E.
  eapply Qle_trans; [|exact E]. apply Qle_lteq. right. apply Qabs_wd.
  rewrite <- Z.add_opp_r, inject_Z_plus, inject_Z_opp, inject_Z_plus. ring.
Qed.

(** [x - y], likewise. *)
Lemma sub_rounding (x y : float) :
  PrimFloat.is_finite x = true -> PrimFloat.is_finite y = true ->
  PrimFloat.is_finite (x - y) = true ->
  (Qabs (value (x - y) - (value x - value y)) <= rounding (x - y))%Q.
Proof.
  intros Fx Fy Fr. apply is_finite_spec in Fx, Fy, Fr.
  pose proof (Prim2SF_valid (x - y)) as Vr.
  unfold rounding, value. rewrite FloatAxioms.sub_spec in *. unfold SF64sub in *.
  pose proof (SFsub_error _ _ (Prim2SF_valid x) (Prim2SF_valid y) Fx Fy Vr Fr) as E.
  apply units_error_Q in E.
  eapply Qle_trans; [|exact E]. apply Qle_lteq. right. apply Qabs_wd.
  rewrite <- !Z.add_opp_r. repeat (rewrite inject_Z_plus || rewrite inject_Z_opp). ring.
Qed.

(** [a / p] for a finite [a >= 0] and a finite [p > 0]: the error is
    stated on the product with [p]. *)
Lemma div_rounding (a p : float) :
  PrimFloat.is_finite a = true -> (0 <=? a) = true ->
  (0 <? p) = true -> PrimFloat.is_finite p = true ->
  PrimFloat.is_finite (a / p) = true ->
  (Qabs (value (a / p) * value p - value a) <= rounding (a / p) * value p)%Q.
Proof.
  intros Fa Na Pp Fp Fr.
  unfold rounding. rewrite (Qabs_pos (value (a / p)))
    by (apply nonneg_value, div_nonneg; assumption).
  rewrite leb_zero_spec in Na.
  destruct (positive_finite_spec p Pp Fp) as (mp & ep & Hp).
  apply is_finite_spec in Fa, Fr.
  pose proof (Prim2SF_valid (a / p)) as Vr. pose proof (Prim2SF_valid p) as Vp.
  unfold value. rewrite FloatAxioms.div_spec in *. unfold SF64div in *. rewrite Hp in *.
  simpl in Vp.
  pose proof (SFdiv_error _ mp ep (Prim2SF_valid a) Vp Na Fa Vr Fr) as E.
  apply units_error_Q2 in E.
  2:{ apply Z.mul_nonneg_nonneg; [lia|apply Z.pow_nonneg; lia]. }
  eapply Qle_trans; [|exact E]. apply Qle_lteq. right. apply Qabs_wd.
  rewrite SFunits_finite.
  rewrite <- Z.add_opp_r, inject_Z_plus, inject_Z_opp, !inject_Z_mult.
  pose proof eta_scale as S.
  generalize dependent (inject_Z (2 ^ 1074)). intros U S.
  setoid_replace (inject_Z (SFunits (Prim2SF a)) * eta)%Q
    with (inject_Z (SFunits (Prim2SF a)) * (U * eta) * eta)%Q using relation Qeq
    by (rewrite S; ring).
  ring.
Qed.

(** A sum of numbers [>= 0] is not below either operand. *)
Lemma add_not_below_r (x y : float) :
  (0 <=? x) = true -> (0 <=? y) = true -> (x + y <? y) = false.
Proof.
  intros Nx Ny. rewrite leb_zero_spec in Nx, Ny.
  pose proof (Prim2SF_valid (x + y)) as Vr.
  rewrite FloatAxioms.ltb_spec. rewrite FloatAxioms.add_spec in *. unfold SF64add in *.
  apply SFadd_not_below; auto using Prim2SF_valid.
Qed.

End FloatRounding.

(** ** The rules of the four handlers, on JavaScript numbers *)

Module LedgerRules.
Import Ledger FloatFacts.

Local Open Scope float_scope.

Lemma literal_zero : @num_of_Z float _ 0 = 0.
Proof. reflexivity. Qed.

Lemma invalid_guard (amount : float) :
  (amount <=? 0) = true \/ PrimFloat.is_nan amount = true <->
  ((amount <=? @num_of_Z float _ 0)%js || isNaN amount) = true.
Proof.
  rewrite literal_zero. simpl. rewrite orb_true_iff. reflexivity.
Qed.

Lemma valid_guard (amount : float) :
  (amount <=? 0) = false -> PrimFloat.is_nan amount = false ->
  ((amount <=? @num_of_Z float _ 0)%js || isNaN amount) = false.
Proof.
  intros L N. rewrite literal_zero. simpl. now rewrite L, N.
Qed.

(** C6. Deposit(a), for a number a > 0, calls [updateBalance] with
    newFiat = fiat + a and the coin balance as it was; for a <= 0 or a NaN
    it is rejected with InvalidAmount. *)
Theorem handleSimulatedDeposit_rules (b : Balance float) (a : float) :
  ((0 <? a) = true ->
     handleSimulatedDeposit b a =
       UpdateBalance (fiat b + a) (coin b) (DepositSuccessful a (fiat b + a)) /\
     accepted (handleSimulatedDeposit b a) = Some {| fiat := fiat b + a; coin := coin b |}) /\
  ((a <=? 0) = true \/ PrimFloat.is_nan a = true ->
     rejection (handleSimulatedDeposit b a) = Some InvalidAmount).
Proof.
  unfold handleSimulatedDeposit. split.
  - intros P. rewrite positive_iff_valid in P. apply negb_true_iff in P.
    rewrite literal_zero. simpl in *. rewrite P. split; reflexivity.
  - intros I. apply invalid_guard in I. rewrite I. reflexivity.
Qed.

Lemma handleSimulatedDeposit_rules_witness :
  accepted (handleSimulatedDeposit {| fiat := 1000; coin := 0 |} 250)
    = Some {| fiat := 1250; coin := 0 |} /\
  rejection (handleSimulatedDeposit {| fiat := 1000; coin := 0 |} (-5))
    = Some InvalidAmount /\
  rejection (handleSimulatedDeposit {| fiat := 1000; coin := 0 |} nan)
    = Some InvalidAmount.
Proof.
  split; [|split].
  - apply (handleSimulatedDeposit_rules {| fiat := 1000; coin := 0 |} 250). reflexivity.
  - apply (handleSimulatedDeposit_rules {| fiat := 1000; coin := 0 |} (-5)).
    left; reflexivity.
  - apply (handleSimulatedDeposit_rules {| fiat := 1000; coin := 0 |} nan).
    right; reflexivity.
Defined.

(** C2. Buy(amount) is rejected with InvalidAmount when amount <= 0 or
    amount is NaN; otherwise it is rejected with InsufficientFiat exactly when
    fiat < amount, so that amount == fiat is accepted; otherwise it calls
    [updateBalance] with newFiat = fiat - amount and
    newCoin = coin + amount / price. *)
Theorem handleBuy_rules (price : float) (b : Balance float) (amount : float) :
  ((amount <=? 0) = true \/ PrimFloat.is_nan amount = true ->
     rejection (handleBuy price b amount) = Some InvalidAmount) /\
  ((amount <=? 0) = false -> PrimFloat.is_nan amount = false ->
     (rejection (handleBuy price b amount) = Some InsufficientFiat
        <-> (fiat b <? amount) = true) /\
     ((fiat b =? amount) = true ->
        accepted (handleBuy price b amount) =
          Some {| fiat := fiat b - amount; coin := coin b + amount / price |}) /\
     ((fiat b <? amount) = false ->
        handleBuy price b amount =
          UpdateBalance (fiat b - amount) (coin b + amount / price)
            (PurchaseSuccessful (amount / price)) /\
        accepted (handleBuy price b amount) =
          Some {| fiat := fiat b - amount; coin := coin b + amount / price |})).
Proof.
  unfold handleBuy. split.
  - intros I. apply invalid_guard in I. rewrite I. reflexivity.
  - intros L N. rewrite (valid_guard _ L N). simpl.
    split; [|split].
    + destruct (fiat b <? amount); simpl; split; congruence.
    + intros E. now rewrite (eqb_not_ltb _ _ E).
    + intros ->. split; reflexivity.
Qed.

Lemma handleBuy_rules_witness :
  accepted (handleBuy 68500 {| fiat := 1000; coin := 0 |} 500)
    = Some {| fiat := 1000 - 500; coin := 0 + 500 / 68500 |} /\
  accepted (handleBuy 68500 {| fiat := 500; coin := 0 |} 500)
    = Some {| fiat := 500 - 500; coin := 0 + 500 / 68500 |} /\
  rejection (handleBuy 68500 {| fiat := 50; coin := 0 |} 100) = Some InsufficientFiat.
Proof.
  split; [|split].
  - apply (handleBuy_rules 68500 {| fiat := 1000; coin := 0 |} 500); reflexivity.
  - apply (handleBuy_rules 68500 {| fiat := 500; coin := 0 |} 500); reflexivity.
  - apply (handleBuy_rules 68500 {| fiat := 50; coin := 0 |} 100); reflexivity.
Defined.

(** C3. Sell(amount) is rejected with InvalidAmount when amount <= 0 or
    amount is NaN; otherwise, with coinsToSell = amount / price, it is
    rejected with InsufficientCoin exactly when coin < coinsToSell, so that
    coinsToSell == coin is accepted; otherwise it calls [updateBalance] with
    newFiat = fiat + amount and newCoin = coin - coinsToSell. *)
Theorem handleSell_rules (price : float) (b : Balance float) (amount : float) :
  ((amount <=? 0) = true \/ PrimFloat.is_nan amount = true ->
     rejection (handleSell price b amount) = Some InvalidAmount) /\
  ((amount <=? 0) = false -> PrimFloat.is_nan amount = false ->
     (rejection (handleSell price b amount) = Some InsufficientCoin
        <-> (coin b <? amount / price) = true) /\
     ((coin b =? amount / price) = true ->
        accepted (handleSell price b amount) =
          Some {| fiat := fiat b + amount; coin := coin b - amount / price |}) /\
     ((coin b <? amount / price) = false ->
        handleSell price b amount =
          UpdateBalance (fiat b + amount) (coin b - amount / price)
            (SaleSuccessful amount) /\
        accepted (handleSell price b amount) =
          Some {| fiat := fiat b + amount; coin := coin b - amount / price |})).
Proof.
  unfold handleSell. split.
  - intros I. apply invalid_guard in I. rewrite I. reflexivity.
  - intros L N. rewrite (valid_guard _ L N). simpl.
    split; [|split].
    + destruct (coin b <? amount / price); simpl; split; congruence.
    + intros E. now rewrite (eqb_not_ltb _ _ E).
    + intros ->. split; reflexivity.
Qed.

Lemma handleSell_rules_witness :
  accepted (handleSell 68500 {| fiat := 0; coin := 1 |} 500)
    = Some {| fiat := 0 + 500; coin := 1 - 500 / 68500 |} /\
  accepted (handleSell 68500 {| fiat := 0; coin := 500 / 68500 |} 500)
    = Some {| fiat := 0 + 500; coin := 500 / 68500 - 500 / 68500 |} /\
  rejection (handleSell 68500 {| fiat := 0; coin := 0 |} 500) = Some InsufficientCoin.
Proof.
  split; [|split].
  - apply (handleSell_rules 68500 {| fiat := 0; coin := 1 |} 500); reflexivity.
  - apply (handleSell_rules 68500 {| fiat := 0; coin := 500 / 68500 |} 500); reflexivity.
  - apply (handleSell_rules 68500 {| fiat := 0; coin := 0 |} 500); reflexivity.
Defined.

(** C4. Withdraw never reads the amount. It is rejected with BelowMinimum
    exactly when coin < minWithdrawal, the threshold being the constant 100
    compared with the coin balance; otherwise it calls [updateBalance] with
    newCoin = 0 and the fiat balance as it was. Whatever balance Withdraw
    writes has coin = 0: there is no partial withdrawal. *)
Theorem handleWithdraw_rules (price minWithdrawal : float) (b : Balance float) :
  (forall amount amount',
     apply price minWithdrawal b Withdraw amount =
     apply price minWithdrawal b Withdraw amount') /\
  (forall amount,
     (rejection (apply price minWithdrawal b Withdraw amount) = Some BelowMinimum
        <-> (coin b <? minWithdrawal) = true) /\
     ((coin b <? minWithdrawal) = false ->
        apply price minWithdrawal b Withdraw amount =
          UpdateBalance (fiat b) 0 (WithdrawalInitiated (coin b))) /\
     (forall b', accepted (apply price minWithdrawal b Withdraw amount) = Some b' ->
        (coin b <? minWithdrawal) = false /\ fiat b' = fiat b /\ coin b' = 0)) /\
  @TradeSession.MIN_WITHDRAWAL_AMOUNT float _ = 100.
Proof.
  split; [reflexivity|]. split; [|reflexivity].
  intros amount. simpl. unfold handleWithdraw. simpl.
  destruct (coin b <? minWithdrawal); simpl.
  - split; [split; congruence|]. split; [congruence|]. intros b' E. discriminate.
  - split; [split; congruence|]. split; [reflexivity|].
    intros b' E. injection E as <-. simpl. repeat split; reflexivity.
Qed.

Lemma handleWithdraw_rules_witness :
  rejection (apply 68500 100 {| fiat := 0; coin := 50 |} Withdraw 10) = Some BelowMinimum /\
  apply 68500 100 {| fiat := 0; coin := 150 |} Withdraw 10 =
    UpdateBalance 0 0 (WithdrawalInitiated 150).
Proof.
  split.
  - apply (handleWithdraw_rules 68500 100 {| fiat := 0; coin := 50 |}). reflexivity.
  - apply (handleWithdraw_rules 68500 100 {| fiat := 0; coin := 150 |}). reflexivity.
Defined.

End LedgerRules.

(** ** Non-negative balances *)

Module NonNegativity.
Import Ledger FloatFacts FloatSigns.

Local Open Scope float_scope.

Lemma valid_amount_nonneg (a : float) :
  ((a <=? @num_of_Z float _ 0)%js || isNaN a) = false -> (0 <=? a) = true.
Proof.
  intros G. apply positive_nonneg. rewrite positive_iff_valid.
  apply negb_true_iff. exact G.
Qed.

(** C1, as the code has it. From a balance whose fiat and coin are finite
    and >= 0, and at a finite price > 0, every intent that [apply] accepts
    (Deposit, Buy, Sell or Withdraw, with any amount) gives a balance whose
    fiat and coin are >= 0. *)
Theorem accepted_balance_nonneg (price minWithdrawal : float)
    (b : Balance float) (intent : Intent) (amount : float) (b' : Balance float) :
  (0 <? price) = true -> PrimFloat.is_finite price = true ->
  finite_balance b = true -> nonneg_balance b = true ->
  accepted (apply price minWithdrawal b intent amount) = Some b' ->
  nonneg_balance b' = true.
Proof.
  intros Pp Fp Fb Nb.
  apply andb_true_iff in Fb as [Ff Fc]. apply andb_true_iff in Nb as [Nf Nc].
  unfold nonneg_balance.
  destruct intent; simpl apply.
  - unfold handleSimulatedDeposit.
    destruct ((amount <=? num_of_Z 0)%js || isNaN amount) eqn:G; [discriminate|].
    apply valid_amount_nonneg in G. simpl. intros [= <-]. simpl.
    now rewrite add_nonneg, Nc.
  - unfold handleBuy.
    destruct ((amount <=? num_of_Z 0)%js || isNaN amount) eqn:G; [discriminate|].
    apply valid_amount_nonneg in G. simpl.
    destruct (fiat b <? amount) eqn:L; [discriminate|]. simpl. intros [= <-]. simpl.
    rewrite sub_nonneg by assumption.
    rewrite add_nonneg; auto using div_nonneg.
  - unfold handleSell.
    destruct ((amount <=? num_of_Z 0)%js || isNaN amount) eqn:G; [discriminate|].
    apply valid_amount_nonneg in G. simpl.
    destruct (coin b <? amount / price) eqn:L; [discriminate|]. simpl. intros [= <-]. simpl.
    rewrite add_nonneg by assumption.
    rewrite sub_nonneg; auto using div_nonneg.
  - unfold handleWithdraw. simpl.
    destruct (coin b <? minWithdrawal); [discriminate|]. simpl. intros [= <-]. simpl.
    now rewrite Nf.
Qed.

Lemma accepted_balance_nonneg_witness :
  nonneg_balance {| fiat := 1000 - 500; coin := 0 + 500 / 68500 |} = true.
Proof.
  apply (accepted_balance_nonneg 68500 100 {| fiat := 1000; coin := 0 |} Buy 500);
    reflexivity.
Defined.

(** C1 as stated fails on JavaScript numbers: [Infinity] is a number >= 0,
    Buy(Infinity) passes both guards of [handleBuy] on a balance whose fiat
    is [Infinity], and [Infinity - Infinity] is [NaN], which is not >= 0. *)
Lemma infinite_balance_breaks_nonneg :
  ~ (forall (b : Balance float) (intent : Intent) (amount : float) (b' : Balance float),
       nonneg_balance b = true ->
       accepted (apply 68500 100 b intent amount) = Some b' ->
       nonneg_balance b' = true).
Proof.
  intros C.
  specialize (C {| fiat := infinity; coin := 0 |} Buy infinity _ eq_refl eq_refl).
  discriminate C.
Qed.

(** A balance with fiat = [Infinity] is reached from the default balance by
    two accepted deposits of a finite amount. *)
Remark infinite_fiat_is_reachable :
  PrimFloat.is_finite 0x1p1023 = true /\
  exists b1 b2 : Balance float,
    accepted (apply 68500 100 {| fiat := 1000; coin := 0 |} Deposit 0x1p1023) = Some b1 /\
    accepted (apply 68500 100 b1 Deposit 0x1p1023) = Some b2 /\
    fiat b2 = infinity /\ nonneg_balance b2 = true.
Proof.
  split; [reflexivity|]. eexists. eexists. repeat split; reflexivity.
Qed.

End NonNegativity.

(** ** Buy and Sell at a fixed price *)

Module FixedPrice.
Import Ledger FloatFacts FloatSigns FloatRounding.

Local Open Scope float_scope.

(** [x <= y] excludes [y < x]. *)
Lemma leb_not_ltb (x y : float) : (x <=? y) = true -> (y <? x) = false.
Proof.
  rewrite FloatAxioms.leb_spec, FloatAxioms.ltb_spec. unfold SFleb, SFltb.
  destruct (Prim2SF x) as [[]|[]| |[] mx ex]; destruct (Prim2SF y) as [[]|[]| |[] my ey];
    simpl; try reflexivity; try discriminate;
    rewrite !Pos.compare_cont_spec; unfold Pos.switch_Eq;
    rewrite (Z.compare_antisym ex ey), (Pos.compare_antisym mx my);
    destruct (ex ?= ey)%Z; destruct (mx ?= my)%positive; simpl;
    try reflexivity; discriminate.
Qed.

(** What an accepted Buy or Sell has checked and what it writes. *)
Lemma buy_accepted (price : float) (b b' : Balance float) (a : float) :
  accepted (handleBuy price b a) = Some b' ->
  (0 <? a) = true /\ (fiat b <? a) = false /\
  b' = {| fiat := fiat b - a; coin := coin b + a / price |}.
Proof.
  unfold handleBuy.
  destruct ((a <=? num_of_Z 0)%js || isNaN a) eqn:G; [discriminate|].
  assert (P : (0 <? a) = true) by (rewrite positive_iff_valid; now apply negb_true_iff).
  simpl. destruct (fiat b <? a) eqn:L; [discriminate|]. simpl. intros [= <-]. auto.
Qed.

Lemma sell_accepted (price : float) (b b' : Balance float) (a : float) :
  accepted (handleSell price b a) = Some b' ->
  (0 <? a) = true /\ (coin b <? a / price) = false /\
  b' = {| fiat := fiat b + a; coin := coin b - a / price |}.
Proof.
  unfold handleSell.
  destruct ((a <=? num_of_Z 0)%js || isNaN a) eqn:G; [discriminate|].
  assert (P : (0 <? a) = true) by (rewrite positive_iff_valid; now apply negb_true_iff).
  simpl. destruct (coin b <? a / price) eqn:L; [discriminate|]. simpl. intros [= <-]. auto.
Qed.

Lemma buy_accepts (price : float) (b : Balance float) (a : float) :
  (0 <? a) = true -> (fiat b <? a) = false ->
  accepted (handleBuy price b a) =
    Some {| fiat := fiat b - a; coin := coin b + a / price |}.
Proof.
  intros P L. unfold handleBuy. rewrite positive_iff_valid in P.
  apply negb_true_iff in P. simpl in *. rewrite P. simpl. now rewrite L.
Qed.

Lemma sell_accepts (price : float) (b : Balance float) (a : float) :
  (0 <? a) = true -> (coin b <? a / price) = false ->
  accepted (handleSell price b a) =
    Some {| fiat := fiat b + a; coin := coin b - a / price |}.
Proof.
  intros P L. unfold handleSell. rewrite positive_iff_valid in P.
  apply negb_true_iff in P. simpl in *. rewrite P. simpl. now rewrite L.
Qed.

(** Three rounded operations move the total value by at most their three
    roundings. *)
Lemma drift_bound (F F' C C' X A P R1 R2 R3 s : Q) :
  (s == 1 \/ s == -1)%Q -> (0 <= P)%Q ->
  (Qabs (F' - (F - s * A)) <= R1)%Q ->
  (Qabs (X * P - A) <= R2 * P)%Q ->
  (Qabs (C' - (C + s * X)) <= R3)%Q ->
  (Qabs ((F' + C' * P) - (F + C * P)) <= R1 + P * (R2 + R3))%Q.
Proof.
  intros Hs HP E1 E2 E3.
  apply Qabs_Qle_condition in E1, E2, E3. apply Qabs_Qle_condition.
  assert (T1 : (0 <= (R3 - (C' - (C + s * X))) * P)%Q) by (apply Qmult_le_0_compat; lra).
  assert (T2 : (0 <= (R3 + (C' - (C + s * X))) * P)%Q) by (apply Qmult_le_0_compat; lra).
  destruct Hs as [Hs|Hs]; rewrite Hs in *; split; lra.
Qed.

(** C7, as the code has it. On JavaScript numbers, from a balance whose
    fiat and coin are finite and at a finite price p > 0, an accepted Buy(a)
    or Sell(a) whose new balance is finite changes the total value,
    evaluated exactly, by at most the rounding of the three operations of
    the handler: the absolute value of
    (newFiat + newCoin * p) - (fiat + coin * p) is at most
    r(newFiat) + p * (r(a / p) + r(newCoin)), where a / p is the quotient the
    handler computes and r(x) = 2^-52 * |x| + 2^-1074. *)
Theorem trade_conserves_value_up_to_rounding (price minWithdrawal : float)
    (b : Balance float) (intent : Intent) (a : float) (b' : Balance float) :
  (0 <? price) = true -> PrimFloat.is_finite price = true ->
  finite_balance b = true ->
  intent = Buy \/ intent = Sell ->
  accepted (apply price minWithdrawal b intent a) = Some b' ->
  finite_balance b' = true ->
  (Qabs (exact_total_value price b' - exact_total_value price b)
     <= rounding (fiat b') + value price * (rounding (a / price) + rounding (coin b')))%Q.
Proof.
  intros Pp Fp Fb I A Fb'.
  apply andb_true_iff in Fb as [Ff Fc].
  assert (NP : (0 <= value price)%Q) by (apply nonneg_value, positive_nonneg, Pp).
  unfold exact_total_value.
  destruct I as [-> | ->]; simpl in A.
  - apply buy_accepted in A as (Pa & L & ->).
    apply andb_true_iff in Fb' as [Ff' Fc']. cbn [fiat coin] in Ff', Fc' |- *.
    pose proof (positive_nonneg a Pa) as Na.
    destruct (finite_difference _ _ Ff') as [_ Fa].
    destruct (finite_sum _ _ Fc') as [_ Fx].
    apply (drift_bound _ _ _ _ (value (a / price)) (value a) _ _ _ _ 1%Q);
      [left; reflexivity|exact NP| | |].
    + rewrite Qmult_1_l. now apply sub_rounding.
    + now apply div_rounding.
    + rewrite Qmult_1_l. now apply add_rounding.
  - apply sell_accepted in A as (Pa & L & ->).
    apply andb_true_iff in Fb' as [Ff' Fc']. cbn [fiat coin] in Ff', Fc' |- *.
    pose proof (positive_nonneg a Pa) as Na.
    destruct (finite_sum _ _ Ff') as [_ Fa].
    destruct (finite_difference _ _ Fc') as [_ Fx].
    apply (drift_bound _ _ _ _ (value (a / price)) (value a) _ _ _ _ (-1)%Q);
      [right; reflexivity|exact NP| | |].
    + setoid_replace (value (fiat b) - -1 * value a)%Q
        with (value (fiat b) + value a)%Q using relation Qeq by ring.
      now apply add_rounding.
    + now apply div_rounding.
    + setoid_replace (value (coin b) + -1 * value (a / price))%Q
        with (value (coin b) - value (a / price))%Q using relation Qeq by ring.
      now apply sub_rounding.
Qed.

Lemma trade_conserves_value_up_to_rounding_witness :
  let b := {| fiat := 1000; coin := 1 |} in
  let b' := {| fiat := 1000 - 9; coin := 1 + 9 / 68500 |} in
  (Qabs (exact_total_value 68500 b' - exact_total_value 68500 b)
     <= rounding (fiat b') + value 68500 * (rounding (9 / 68500) + rounding (coin b')))%Q.
Proof.
  apply (trade_conserves_value_up_to_rounding 68500 100 {| fiat := 1000; coin := 1 |} Buy 9
           {| fiat := 1000 - 9; coin := 1 + 9 / 68500 |});
    try reflexivity. left; reflexivity.
Defined.

(** The size of the bound: for Buy(9) from fiat 1000 and coin 1 at the price
    68500 the total value, evaluated exactly, grows by 8259/2^50, and the
    bound is below 10^-10. *)
Remark drift_at_example :
  let b := {| fiat := 1000; coin := 1 |} in
  let b' := {| fiat := 1000 - 9; coin := 1 + 9 / 68500 |} in
  (exact_total_value 68500 b' - exact_total_value 68500 b == 8259 # (2 ^ 50)%positive /\
   rounding (fiat b') + value 68500 * (rounding (9 / 68500) + rounding (coin b'))
     < 1 # (10 ^ 10)%positive)%Q.
Proof. vm_compute. split; reflexivity. Qed.

(** C7 as stated fails on JavaScript numbers, also when the total value of
    the balances is evaluated exactly: Buy(9) from fiat 1000 and coin 1 at the
    price 68500 writes coin = 1 + 9/68500 rounded, and the total value of the
    new balance is not that of the old one. *)
Lemma conservation_fails_on_doubles :
  ~ (forall (p : float) (b : Balance float) (intent : Intent) (a : float)
            (b' : Balance float),
       (0 <? p) = true -> PrimFloat.is_finite p = true ->
       finite_balance b = true -> nonneg_balance b = true ->
       intent = Buy \/ intent = Sell ->
       accepted (apply p 100 b intent a) = Some b' ->
       finite_balance b' = true ->
       (exact_total_value p b' == exact_total_value p b)%Q).
Proof.
  intros C.
  specialize (C 68500 {| fiat := 1000; coin := 1 |} Buy 9 _
                eq_refl eq_refl eq_refl eq_refl (or_introl eq_refl) eq_refl eq_refl).
  vm_compute in C. discriminate C.
Qed.

(** Two rounded operations that undo each other. *)
Lemma round_trip_bound (x x1 x2 y R1 R2 : Q) :
  (Qabs (x1 - (x - y)) <= R1)%Q -> (Qabs (x2 - (x1 + y)) <= R2)%Q ->
  (Qabs (x2 - x) <= R1 + R2)%Q.
Proof.
  intros E1 E2. apply Qabs_Qle_condition in E1, E2. apply Qabs_Qle_condition.
  split; lra.
Qed.

Lemma round_trip_bound' (x x1 x2 y R1 R2 : Q) :
  (Qabs (x1 - (x + y)) <= R1)%Q -> (Qabs (x2 - (x1 - y)) <= R2)%Q ->
  (Qabs (x2 - x) <= R1 + R2)%Q.
Proof.
  intros E1 E2. apply Qabs_Qle_condition in E1, E2. apply Qabs_Qle_condition.
  split; lra.
Qed.

(** C5, as the code has it. On JavaScript numbers, from a balance whose
    fiat and coin are finite and whose coin is >= 0, at a finite price p > 0
    and for an amount a with 0 < a <= fiat: Buy(a) is accepted, and Sell(a)
    on the balance b1 it leaves is accepted, leaving b2. When b1 and b2 are
    finite, each field of b2 is the field before the Buy up to the rounding
    of the two operations on it: evaluated exactly, the absolute value of
    b2.fiat - b.fiat is at most r(b1.fiat) + r(b2.fiat) and that of
    b2.coin - b.coin at most r(b1.coin) + r(b2.coin), where
    r(x) = 2^-52 * |x| + 2^-1074. *)
Theorem buy_then_sell_round_trip (price minWithdrawal : float)
    (b : Balance float) (a : float) :
  (0 <? price) = true -> PrimFloat.is_finite price = true ->
  finite_balance b = true -> (0 <=? coin b) = true ->
  (0 <? a) = true -> (a <=? fiat b) = true ->
  exists b1 b2,
    accepted (apply price minWithdrawal b Buy a) = Some b1 /\
    accepted (apply price minWithdrawal b1 Sell a) = Some b2 /\
    (finite_balance b1 = true -> finite_balance b2 = true ->
       (Qabs (value (fiat b2) - value (fiat b))
          <= rounding (fiat b1) + rounding (fiat b2))%Q /\
       (Qabs (value (coin b2) - value (coin b))
          <= rounding (coin b1) + rounding (coin b2))%Q).
Proof.
  intros Pp Fp Fb Nc Pa La.
  apply andb_true_iff in Fb as [Ff Fc].
  apply leb_not_ltb in La.
  pose proof (positive_nonneg a Pa) as Na.
  pose proof (div_nonneg a price Na Pp Fp) as Nx.
  pose proof (add_not_below_r (coin b) (a / price) Nc Nx) as L2.
  exists {| fiat := fiat b - a; coin := coin b + a / price |}.
  exists {| fiat := fiat b - a + a; coin := coin b + a / price - a / price |}.
  simpl apply. split; [now apply buy_accepts|]. split; [now apply sell_accepts|].
  intros F1 F2.
  apply andb_true_iff in F1 as [Ff1 Fc1]. apply andb_true_iff in F2 as [Ff2 Fc2].
  cbn [fiat coin] in Ff1, Fc1, Ff2, Fc2 |- *.
  destruct (finite_difference _ _ Ff1) as [_ Fa].
  destruct (finite_sum _ _ Fc1) as [_ Fx].
  split.
  - apply (round_trip_bound _ (value (fiat b - a)) _ (value a)).
    + now apply sub_rounding.
    + now apply add_rounding.
  - apply (round_trip_bound' _ (value (coin b + a / price)) _ (value (a / price))).
    + now apply add_rounding.
    + now apply sub_rounding.
Qed.

Lemma buy_then_sell_round_trip_witness :
  exists b1 b2 : Balance float,
    accepted (apply 68500 100 {| fiat := 1000; coin := 1 |} Buy 4) = Some b1 /\
    accepted (apply 68500 100 b1 Sell 4) = Some b2 /\
    (finite_balance b1 = true -> finite_balance b2 = true ->
       (Qabs (value (fiat b2) - value 1000%float)
          <= rounding (fiat b1) + rounding (fiat b2))%Q /\
       (Qabs (value (coin b2) - value 1%float)
          <= rounding (coin b1) + rounding (coin b2))%Q).
Proof.
  apply (buy_then_sell_round_trip 68500 100 {| fiat := 1000; coin := 1 |} 4); reflexivity.
Defined.

(** C5 as stated fails on JavaScript numbers. From fiat 1000 and coin 1,
    Buy(4) and then Sell(4) at the price 68500 are both accepted, and the coin
    balance comes back as 0.99999999999999989: [1 + 4/68500] is rounded. *)
Lemma round_trip_fails_on_doubles :
  ~ (forall (p : float) (b : Balance float) (a : float) (b1 b2 : Balance float),
       nonneg_balance b = true -> finite_balance b = true ->
       (0 <? a) = true -> (a <=? fiat b) = true -> (0 <? p) = true ->
       accepted (apply p 100 b Buy a) = Some b1 ->
       accepted (apply p 100 b1 Sell a) = Some b2 ->
       same_balance b2 b = true).
Proof.
  intros C.
  specialize (C 68500 {| fiat := 1000; coin := 1 |} 4 _ _
                eq_refl eq_refl eq_refl eq_refl eq_refl eq_refl eq_refl).
  discriminate C.
Qed.

(** The same trade changes the total value as the code's own arithmetic
    computes it. *)
Remark conservation_is_inexact_on_doubles :
  exists b' : Balance float,
    accepted (apply 68500 100 {| fiat := 1000; coin := 1 |} Buy 9) = Some b' /\
    (total_value 68500 b' =? total_value 68500 {| fiat := 1000; coin := 1 |}) = false.
Proof. eexists. split; reflexivity. Qed.

End FixedPrice.

(** ** The trade session: rejections, readiness, snapshots *)

Module SessionRules.
Import Ledger TradeSession.

Section Session.
Context {num : Type} `{NumberOps num}.
Variable appId : string.

Local Abbreviation PRICE := (@SIMULATED_COIN_PRICE num _).
Local Abbreviation MINIMUM := (@MIN_WITHDRAWAL_AMOUNT num _).

(** A handler either calls [updateBalance] or returns one of the four
    rejection messages. *)
Lemma apply_accepts_or_rejects (price minWithdrawal : num) (b : Balance num)
    (intent : Intent) (a : num) :
  (exists b', accepted (apply price minWithdrawal b intent a) = Some b') \/
  (exists m r, apply price minWithdrawal b intent a = SetMessage m /\
               rejection (SetMessage m) = Some r).
Proof.
  destruct intent; simpl;
    unfold handleSimulatedDeposit, handleBuy, handleSell, handleWithdraw;
    repeat match goal with
           | |- context [if ?c then _ else _] => destruct c
           end;
    simpl; eauto.
Qed.

Lemma updateBalance_not_ready (newFiat newCoin : num) (m : Message num)
    (resolves : bool) (w : World num) :
  ready (fst w) = None -> updateBalance appId newFiat newCoin m resolves w = w.
Proof.
  destruct w as [st store]. simpl. unfold updateBalance. now intros ->.
Qed.

(** C8. When [apply] rejects the intent, [execute] sends nothing to the
    store and leaves its documents and the balance as they were: the new
    world is the old one with the rejection's message set. *)
Theorem rejected_intent_only_sets_message (intent : Intent) (resolves : bool)
    (w : World num) (r : Rejection) :
  rejection (apply PRICE MINIMUM (userBalance (fst w)) intent (tradeAmount (fst w)))
    = Some r ->
  exists m,
    rejection (SetMessage m) = Some r /\
    execute appId intent resolves w = (setMessage m (fst w), snd w) /\
    message (fst (execute appId intent resolves w)) = m /\
    userBalance (fst (execute appId intent resolves w)) = userBalance (fst w) /\
    requests (snd (execute appId intent resolves w)) = requests (snd w) /\
    documents (snd (execute appId intent resolves w)) = documents (snd w).
Proof.
  unfold execute.
  destruct (apply PRICE MINIMUM (userBalance (fst w)) intent (tradeAmount (fst w)))
    as [m|f c m]; simpl; [|discriminate].
  intros R. exists m. repeat split; auto.
Qed.

(** C9, as the code has it. When [db] or [userId] is absent, [execute]
    sends nothing to the store and leaves its documents and the balance as
    they were. No failure of its own is shown: an intent that [apply]
    rejects shows its rejection message, and an intent that [apply] accepts
    returns from [updateBalance] with the whole state untouched. *)
Theorem not_ready_no_store_access (intent : Intent) (resolves : bool) (w : World num) :
  ready (fst w) = None ->
  snd (execute appId intent resolves w) = snd w /\
  userBalance (fst (execute appId intent resolves w)) = userBalance (fst w) /\
  match apply PRICE MINIMUM (userBalance (fst w)) intent (tradeAmount (fst w)) with
  | SetMessage m => execute appId intent resolves w = (setMessage m (fst w), snd w)
  | UpdateBalance _ _ _ => execute appId intent resolves w = w
  end.
Proof.
  intros R. unfold execute.
  destruct (apply PRICE MINIMUM (userBalance (fst w)) intent (tradeAmount (fst w)))
    as [m|f c m]; simpl.
  - auto.
  - rewrite updateBalance_not_ready by exact R. auto.
Qed.

(** Reading a field through [|| 0.00]. *)
Lemma falsy_or_zero (v : JSValue num) :
  ToBoolean v = false ->
  as_number (LogicalOr v (JSNumber (num_of_Z 0))) = Some (num_of_Z 0).
Proof. unfold LogicalOr. now intros ->. Qed.

Lemma missing_field_undefined (data : DocumentData num) (name : string) :
  data !! name = None -> field data name = JSUndefined.
Proof. unfold field. now intros ->. Qed.

Lemma ToBoolean_false (v : JSValue num) :
  ToBoolean v = false <->
  v = JSUndefined \/ v = JSNull \/ v = JSBoolean false \/ v = JSString EmptyString \/
  exists x, v = JSNumber x /\ ((x =? num_of_Z 0)%js = true \/ isNaN x = true).
Proof.
  split.
  - destruct v as [| |[]|x|s]; simpl; intros E; auto; try discriminate.
    + apply negb_false_iff, orb_true_iff in E. eauto 10.
    + apply negb_false_iff, String.eqb_eq in E. subst. auto.
  - intros [->|[->|[->|[->|(x & -> & E)]]]]; simpl; try reflexivity.
    apply negb_false_iff, orb_true_iff. exact E.
Qed.

Lemma onSnapshot_next_loads (ref : DocumentReference) (data : DocumentData num)
    (resolves : bool) (w : World num) (f c : num) :
  as_number (LogicalOr (field data "fiat") (JSNumber (num_of_Z 0))) = Some f ->
  as_number (LogicalOr (field data "coin") (JSNumber (num_of_Z 0))) = Some c ->
  onSnapshot_next ref (Some data) resolves w =
    Some (setMessage NoMessage (setUserBalance {| fiat := f; coin := c |} (fst w)), snd w).
Proof.
  destruct w as [st store]. simpl. now intros -> ->.
Qed.

(** What a trade computes after a snapshot that loaded [b]. *)
Lemma execute_after_snapshot (b : Balance num) (w : World num) (intent : Intent)
    (resolves : bool) :
  let w' := (setMessage NoMessage (setUserBalance b (fst w)), snd w) in
  execute appId intent resolves w' =
    run appId (apply PRICE MINIMUM b intent (tradeAmount (fst w))) resolves w'.
Proof. reflexivity. Qed.

(** C10. When a snapshot of an existing document arrives, a fiat or coin
    field that is missing, 0, -0, NaN, null, false or the empty string (a
    falsy value) is loaded into [userBalance] as the number 0, and the next
    trade computes from 0 for that field. *)
Theorem falsy_field_loads_as_zero (ref : DocumentReference) (data : DocumentData num)
    (resolves : bool) (w : World num) :
  (forall name, data !! name = None -> ToBoolean (field data name) = false) /\
  (forall v, ToBoolean v = false <->
     v = JSUndefined \/ v = JSNull \/ v = JSBoolean false \/ v = JSString EmptyString \/
     exists x, v = JSNumber x /\ ((x =? num_of_Z 0)%js = true \/ isNaN x = true)) /\
  (ToBoolean (field data "fiat") = false ->
   forall c, as_number (LogicalOr (field data "coin") (JSNumber (num_of_Z 0))) = Some c ->
   exists w',
     onSnapshot_next ref (Some data) resolves w = Some w' /\
     userBalance (fst w') = {| fiat := num_of_Z 0; coin := c |} /\
     forall intent resolves',
       execute appId intent resolves' w' =
         run appId (apply PRICE MINIMUM {| fiat := num_of_Z 0; coin := c |} intent
                      (tradeAmount (fst w))) resolves' w') /\
  (ToBoolean (field data "coin") = false ->
   forall f, as_number (LogicalOr (field data "fiat") (JSNumber (num_of_Z 0))) = Some f ->
   exists w',
     onSnapshot_next ref (Some data) resolves w = Some w' /\
     userBalance (fst w') = {| fiat := f; coin := num_of_Z 0 |} /\
     forall intent resolves',
       execute appId intent resolves' w' =
         run appId (apply PRICE MINIMUM {| fiat := f; coin := num_of_Z 0 |} intent
                      (tradeAmount (fst w))) resolves' w').
Proof.
  split; [|split; [|split]].
  - intros name E. now rewrite missing_field_undefined.
  - apply ToBoolean_false.
  - intros F c C. eexists. split; [|split].
    + apply onSnapshot_next_loads; [apply falsy_or_zero, F|exact C].
    + reflexivity.
    + intros intent r. apply execute_after_snapshot.
  - intros F f C. eexists. split; [|split].
    + apply onSnapshot_next_loads; [exact C|apply falsy_or_zero, F].
    + reflexivity.
    + intros intent r. apply execute_after_snapshot.
Qed.

End Session.

Local Open Scope float_scope.

Lemma rejected_intent_only_sets_message_witness :
  let w : World float :=
    (setTradeAmount 100 (setUserBalance {| fiat := 50; coin := 0 |} initialState),
     emptyStore) in
  exists m,
    rejection (SetMessage m) = Some InsufficientFiat /\
    execute "trade-coin-app-id" Buy true w = (setMessage m (fst w), snd w) /\
    message (fst (execute "trade-coin-app-id" Buy true w)) = m /\
    userBalance (fst (execute "trade-coin-app-id" Buy true w)) = userBalance (fst w) /\
    requests (snd (execute "trade-coin-app-id" Buy true w)) = requests (snd w) /\
    documents (snd (execute "trade-coin-app-id" Buy true w)) = documents (snd w).
Proof.
  intros w.
  apply (rejected_intent_only_sets_message "trade-coin-app-id" Buy true w InsufficientFiat).
  reflexivity.
Defined.

Lemma not_ready_no_store_access_witness :
  let w : World float := (initialState, emptyStore) in
  snd (execute "trade-coin-app-id" Buy true w) = snd w /\
  userBalance (fst (execute "trade-coin-app-id" Buy true w)) = userBalance (fst w) /\
  execute "trade-coin-app-id" Buy true w = w.
Proof.
  intros w.
  pose proof (not_ready_no_store_access "trade-coin-app-id" Buy true w eq_refl) as P.
  vm_compute in P. vm_compute. exact P.
Defined.

(** C9 as stated fails: before sign-in ([db] and [userId] are null), Buy with
    the initial amount 10 on the initial balance passes the handler's checks,
    [updateBalance] returns at its guard, and the message is still the empty
    one: no failure is shown. *)
Lemma not_ready_is_silent :
  ~ (forall (w : World float) (intent : Intent) (resolves : bool),
       ready (fst w) = None ->
       failure_notice (message (fst (execute "trade-coin-app-id" intent resolves w))) = true /\
       snd (execute "trade-coin-app-id" intent resolves w) = snd w).
Proof.
  intros C.
  destruct (C (initialState, emptyStore) Buy true eq_refl) as [N _].
  discriminate N.
Qed.

Lemma falsy_field_loads_as_zero_witness :
  let data : DocumentData float := <["coin" := JSNumber 2]> ∅ in
  let w : World float := (initialState, emptyStore) in
  exists w',
    onSnapshot_next "balances/user" (Some data) true w = Some w' /\
    userBalance (fst w') = {| fiat := 0; coin := 2 |} /\
    forall intent resolves',
      execute "trade-coin-app-id" intent resolves' w' =
        run "trade-coin-app-id"
          (apply SIMULATED_COIN_PRICE MIN_WITHDRAWAL_AMOUNT {| fiat := 0; coin := 2 |}
             intent (tradeAmount (fst w))) resolves' w'.
Proof.
  intros data w.
  destruct (falsy_field_loads_as_zero "trade-coin-app-id" "balances/user" data true w)
    as (_ & _ & F & _).
  apply F; reflexivity.
Defined.

End SessionRules.

(** ** Strings *)

Module StringFacts.

Lemma append_cons (c : Ascii.ascii) (s t : string) :
  String.append (String c s) t = String c (String.append s t).
Proof. reflexivity. Qed.

Lemma length_append (s1 s2 : string) :
  String.length (String.append s1 s2) = String.length s1 + String.length s2.
Proof.
  induction s1 as [|c s1 IH]; [reflexivity|].
  rewrite append_cons. simpl. now rewrite IH.
Qed.



End StringFacts.

(** ** What a trade does to the store and the state *)

Module StoreRules.
Import Ledger TradeSession Component StringFacts.

Section Store.
Context {num : Type} `{NumberOps num}.
Variable appId : string.

Local Abbreviation PRICE := (@SIMULATED_COIN_PRICE num _).
Local Abbreviation MINIMUM := (@MIN_WITHDRAWAL_AMOUNT num _).

Lemma balance_document_fiat (f c : num) :
  field (balance_document f c) "fiat" = JSNumber f.
Proof. unfold field, balance_document, DocumentData. now rewrite lookup_insert_eq. Qed.

Lemma balance_document_coin (f c : num) :
  field (balance_document f c) "coin" = JSNumber c.
Proof.
  unfold field, balance_document, DocumentData.
  rewrite lookup_insert_ne by discriminate. now rewrite lookup_insert_eq.
Qed.

Lemma balance_document_other (f c : num) (name : string) :
  name <> "fiat"%string -> name <> "coin"%string ->
  field (balance_document f c) name = JSUndefined.
Proof.
  intros Nf Nc. unfold field, balance_document, DocumentData.
  rewrite !lookup_insert_ne by congruence. now rewrite lookup_empty.
Qed.


Lemma updateBalance_ready (newFiat newCoin : num) (m : Message num)
    (resolves : bool) (w : World num) (uid : string) :
  ready (fst w) = Some uid ->
  updateBalance appId newFiat newCoin m resolves w =
    (setModal None (setIsLoading false
       (setMessage (if resolves then m else TransactionFailed)
          (setIsLoading true (fst w)))),
     setDoc (balanceDocRef appId uid) (balance_document newFiat newCoin) resolves (snd w)).
Proof.
  destruct w as [st store]. simpl. unfold updateBalance. intros ->.
  destruct resolves; reflexivity.
Qed.

(** X1. A resolved write replaces the whole document of the signed-in user
    by the two fields fiat and coin (any other field reads undefined
    afterwards) and leaves every other document as it was. *)
Theorem resolved_write_replaces_document (newFiat newCoin : num) (m : Message num)
    (w : World num) (uid : string) :
  ready (fst w) = Some uid ->
  let w' := updateBalance appId newFiat newCoin m true w in
  (exists data,
     documents (snd w') !! balanceDocRef appId uid = Some data /\
     field data "fiat" = JSNumber newFiat /\
     field data "coin" = JSNumber newCoin /\
     forall name, name <> "fiat"%string -> name <> "coin"%string ->
                  field data name = JSUndefined) /\
  (forall ref, ref <> balanceDocRef appId uid ->
     documents (snd w') !! ref = documents (snd w) !! ref).
Proof.
  intros R w'. subst w'. rewrite (updateBalance_ready _ _ _ _ _ _ R). simpl. split.
  - exists (balance_document newFiat newCoin). rewrite lookup_insert_eq.
    auto using balance_document_fiat, balance_document_coin, balance_document_other.
  - intros ref N. now rewrite lookup_insert_ne.
Qed.

(** The two cases of [execute] on the store. *)
Lemma execute_store_cases (intent : Intent) (resolves : bool) (w : World num) :
  match accepted (apply PRICE MINIMUM (userBalance (fst w)) intent (tradeAmount (fst w))),
        ready (fst w) with
  | Some b, Some uid =>
      let ref := balanceDocRef appId uid in
      let data := balance_document (fiat b) (coin b) in
      requests (snd (execute appId intent resolves w)) =
        requests (snd w) ++ [SetDoc ref data] /\
      documents (snd (execute appId intent resolves w)) =
        if resolves then <[ref := data]> (documents (snd w)) else documents (snd w)
  | _, _ => snd (execute appId intent resolves w) = snd w
  end.
Proof.
  unfold execute.
  destruct (apply PRICE MINIMUM (userBalance (fst w)) intent (tradeAmount (fst w)))
    as [m|f c m]; simpl.
  - reflexivity.
  - destruct (ready (fst w)) as [uid|] eqn:R.
    + rewrite (updateBalance_ready _ _ _ _ _ _ R). simpl. auto.
    + destruct w as [st store]. simpl in *. unfold updateBalance. now rewrite R.
Qed.

(** The fields of the state that [execute] leaves alone. *)
Lemma execute_fields (intent : Intent) (resolves : bool) (w : World num) :
  let st' := fst (execute appId intent resolves w) in
  userBalance st' = userBalance (fst w) /\
  tradeAmount st' = tradeAmount (fst w) /\
  db st' = db (fst w) /\ userId st' = userId (fst w) /\
  isAuthReady st' = isAuthReady (fst w).
Proof.
  unfold execute.
  destruct (apply PRICE MINIMUM (userBalance (fst w)) intent (tradeAmount (fst w)))
    as [m|f c m]; simpl.
  - repeat split.
  - destruct w as [st store]. unfold updateBalance.
    destruct (ready st); destruct resolves; simpl; repeat split.
Qed.

(** X2. The store sees a trade through at most one request: [execute] sends
    one [setDoc], for the user's own document and with the accepted balance,
    exactly when [apply] accepts and [db] and [userId] are set; the document
    changes only if that write also resolves. In every other case requests
    and documents are as before. *)
Theorem execute_store_effect (intent : Intent) (resolves : bool) (w : World num) :
  match accepted (apply PRICE MINIMUM (userBalance (fst w)) intent (tradeAmount (fst w))),
        ready (fst w) with
  | Some b, Some uid =>
      let ref := balanceDocRef appId uid in
      let data := balance_document (fiat b) (coin b) in
      requests (snd (execute appId intent resolves w)) =
        requests (snd w) ++ [SetDoc ref data] /\
      documents (snd (execute appId intent resolves w)) =
        if resolves then <[ref := data]> (documents (snd w)) else documents (snd w)
  | _, _ => snd (execute appId intent resolves w) = snd w
  end.
Proof. exact (execute_store_cases intent resolves w). Qed.

(** X3. A trade never changes the local balance: whatever the intent and
    whether or not the write resolves, [execute] leaves [userBalance],
    [tradeAmount], [db], [userId] and [isAuthReady] as they were. Only a
    snapshot changes the balance on screen. *)
Theorem execute_keeps_local_balance (intent : Intent) (resolves : bool) (w : World num) :
  let st' := fst (execute appId intent resolves w) in
  userBalance st' = userBalance (fst w) /\
  tradeAmount st' = tradeAmount (fst w) /\
  db st' = db (fst w) /\ userId st' = userId (fst w) /\
  isAuthReady st' = isAuthReady (fst w).
Proof. exact (execute_fields intent resolves w). Qed.


(** X5. What is written is what is watched: when the listener is subscribed,
    the trade handlers are ready for the same user, and after an accepted
    trade whose write resolves, the subscribed document holds exactly the
    accepted balance. *)
Theorem accepted_trade_lands_in_subscribed_document (intent : Intent) (w : World num)
    (ref : DocumentReference) (b : Balance num) :
  subscription appId (fst w) = Some ref ->
  accepted (apply PRICE MINIMUM (userBalance (fst w)) intent (tradeAmount (fst w)))
    = Some b ->
  (exists uid, ready (fst w) = Some uid /\ ref = balanceDocRef appId uid) /\
  documents (snd (execute appId intent true w)) !! ref
    = Some (balance_document (fiat b) (coin b)).
Proof.
  unfold subscription. intros S A.
  destruct (ready (fst w)) as [uid|] eqn:R; [|discriminate].
  destruct (isAuthReady (fst w)); [|discriminate]. injection S as <-.
  split; [eauto|].
  pose proof (execute_store_cases intent true w) as E.
  rewrite A, R in E. destruct E as [_ ->]. apply lookup_insert_eq.
Qed.

End Store.

Local Open Scope float_scope.

Lemma resolved_write_replaces_document_witness :
  let w : World float :=
    (setUserId (Some "u1"%string) (setDb (Some firestore) initialState), emptyStore) in
  let w' := updateBalance "trade-coin-app-id" 990 (10 / 68500) NoMessage true w in
  (exists data,
     documents (snd w') !! balanceDocRef "trade-coin-app-id" "u1" = Some data /\
     field data "fiat" = JSNumber 990 /\
     field data "coin" = JSNumber (10 / 68500) /\
     forall name, name <> "fiat"%string -> name <> "coin"%string ->
                  field data name = JSUndefined) /\
  (forall ref, ref <> balanceDocRef "trade-coin-app-id" "u1" ->
     documents (snd w') !! ref = documents (snd w) !! ref).
Proof.
  intros w.
  apply (resolved_write_replaces_document "trade-coin-app-id" 990 (10 / 68500)
           NoMessage w "u1").
  reflexivity.
Defined.


Lemma accepted_trade_lands_in_subscribed_document_witness :
  let w : World float :=
    (onAuthStateChanged_next (Some "u1"%string) (setDb (Some firestore) initialState),
     emptyStore) in
  (exists uid, ready (fst w) = Some uid /\
               balanceDocRef "trade-coin-app-id" "u1" = balanceDocRef "trade-coin-app-id" uid) /\
  documents (snd (execute "trade-coin-app-id" Buy true w))
    !! balanceDocRef "trade-coin-app-id" "u1"
    = Some (balance_document (1000 - 10) (0 + 10 / 68500)).
Proof.
  intros w.
  apply (accepted_trade_lands_in_subscribed_document "trade-coin-app-id" Buy w
           (balanceDocRef "trade-coin-app-id" "u1")
           {| fiat := 1000 - 10; coin := 0 + 10 / 68500 |}).
  - reflexivity.
  - reflexivity.
Defined.

End StoreRules.

(** ** Numbers through the store, on JavaScript numbers *)

Module StoredNumbers.
Import Ledger TradeSession Component FloatFacts SpecFloatSigns FloatSigns StoreRules.

Local Open Scope float_scope.

Lemma eqb_zero_sym (x : float) : (x =? 0) = true -> (0 =? x) = true.
Proof.
  rewrite !FloatAxioms.eqb_spec. change (Prim2SF 0) with (S754_zero false).
  destruct (Prim2SF x) as [[]|[]| |[] m e]; cbv [SFeqb SFcompare]; congruence.
Qed.

Lemma eqb_refl (x : float) : PrimFloat.is_nan x = false -> (x =? x) = true.
Proof. unfold PrimFloat.is_nan. now intros E%negb_false_iff. Qed.

Lemma ToBoolean_number (x : float) :
  ToBoolean (JSNumber x) = negb ((x =? 0) || PrimFloat.is_nan x).
Proof. reflexivity. Qed.

(** A stored number read through [|| 0.00]: a NaN comes back as 0, any other
    number as a number [===] to it. *)
Lemma load_number (x : float) :
  exists y,
    as_number (LogicalOr (JSNumber x) (JSNumber (@num_of_Z float _ 0))) = Some y /\
    PrimFloat.is_nan y = false /\
    (PrimFloat.is_nan x = true -> y = 0) /\
    (PrimFloat.is_nan x = false -> (y =? x) = true).
Proof.
  unfold LogicalOr. rewrite ToBoolean_number.
  destruct (x =? 0) eqn:Z; destruct (PrimFloat.is_nan x) eqn:N; simpl.
  - exists 0. repeat split; auto; discriminate.
  - exists 0. repeat split; auto; try discriminate. intros _. now apply eqb_zero_sym.
  - exists 0. repeat split; auto; discriminate.
  - exists x. repeat split; auto; try discriminate. intros _. now apply eqb_refl.
Qed.

Lemma load_nonneg_or_nan (x y : float) :
  nonneg_or_nan x = true ->
  as_number (LogicalOr (JSNumber x) (JSNumber (@num_of_Z float _ 0))) = Some y ->
  (0 <=? y) = true.
Proof.
  unfold LogicalOr, nonneg_or_nan. rewrite ToBoolean_number.
  destruct (x =? 0); destruct (PrimFloat.is_nan x); simpl;
    intros O [= <-]; try reflexivity.
  now rewrite orb_false_r in O.
Qed.

(** X6. Write, then snapshot. After a resolved write of (newFiat, newCoin),
    the snapshot of the written document is loaded without a further request;
    each field comes back [===] to the number written, except that a written
    NaN comes back as 0. The loaded balance is never NaN. *)
Theorem write_then_snapshot (appId : string) (newFiat newCoin : float)
    (m : Message float) (resolves : bool) (w : World float) (uid : string) :
  ready (fst w) = Some uid ->
  let ref := balanceDocRef appId uid in
  let w1 := updateBalance appId newFiat newCoin m true w in
  exists w2,
    onSnapshot_next ref (documents (snd w1) !! ref) resolves w1 = Some w2 /\
    snd w2 = snd w1 /\
    (PrimFloat.is_nan newFiat = false -> (fiat (userBalance (fst w2)) =? newFiat) = true) /\
    (PrimFloat.is_nan newCoin = false -> (coin (userBalance (fst w2)) =? newCoin) = true) /\
    (PrimFloat.is_nan newFiat = true -> fiat (userBalance (fst w2)) = 0) /\
    (PrimFloat.is_nan newCoin = true -> coin (userBalance (fst w2)) = 0) /\
    PrimFloat.is_nan (fiat (userBalance (fst w2))) = false /\
    PrimFloat.is_nan (coin (userBalance (fst w2))) = false.
Proof.
  intros R ref w1. subst ref w1.
  rewrite (updateBalance_ready _ _ _ _ _ _ _ R). simpl documents.
  rewrite lookup_insert_eq.
  destruct (load_number newFiat) as (f & Lf & Nf & Zf & Ef).
  destruct (load_number newCoin) as (c & Lc & Nc & Zc & Ec).
  eexists. split.
  - apply SessionRules.onSnapshot_next_loads.
    + rewrite balance_document_fiat. exact Lf.
    + rewrite balance_document_coin. exact Lc.
  - simpl. repeat split; assumption.
Qed.

Lemma write_then_snapshot_witness :
  let w : World float :=
    (Component.setUserId (Some "u1"%string)
       (Component.setDb (Some firestore) initialState), emptyStore) in
  let ref := balanceDocRef "trade-coin-app-id" "u1" in
  let w1 := updateBalance "trade-coin-app-id" 990 (10 / 68500) NoMessage true w in
  exists w2,
    onSnapshot_next ref (documents (snd w1) !! ref) true w1 = Some w2 /\
    snd w2 = snd w1 /\
    (PrimFloat.is_nan 990 = false -> (fiat (userBalance (fst w2)) =? 990) = true) /\
    (PrimFloat.is_nan (10 / 68500) = false ->
       (coin (userBalance (fst w2)) =? 10 / 68500) = true) /\
    (PrimFloat.is_nan 990 = true -> fiat (userBalance (fst w2)) = 0) /\
    (PrimFloat.is_nan (10 / 68500) = true -> coin (userBalance (fst w2)) = 0) /\
    PrimFloat.is_nan (fiat (userBalance (fst w2))) = false /\
    PrimFloat.is_nan (coin (userBalance (fst w2))) = false.
Proof.
  intros w ref w1.
  apply (write_then_snapshot "trade-coin-app-id" 990 (10 / 68500) NoMessage true w "u1").
  reflexivity.
Defined.

(** X7. First snapshot of a missing document. The listener shows the default
    balance (1000, 0) and sends one [setDoc] of it; if that write resolves,
    the document exists, its snapshot loads the same default balance, and no
    second write is sent. If it is rejected the store has no document still. *)
Theorem missing_document_is_initialised_once (ref : DocumentReference)
    (resolves : bool) (w : World float) :
  documents (snd w) !! ref = None ->
  exists w1,
    onSnapshot_next ref None true w = Some w1 /\
    userBalance (fst w1) = {| fiat := 1000; coin := 0 |} /\
    requests (snd w1) = requests (snd w) ++ [SetDoc ref (balance_document 1000 0)] /\
    (exists w2,
       onSnapshot_next ref (documents (snd w1) !! ref) resolves w1 = Some w2 /\
       userBalance (fst w2) = {| fiat := 1000; coin := 0 |} /\
       snd w2 = snd w1) /\
    (exists w1',
       onSnapshot_next ref None false w = Some w1' /\
       documents (snd w1') !! ref = None).
Proof.
  intros M. destruct w as [st store]. simpl in M.
  eexists. split; [reflexivity|]. simpl. split; [reflexivity|]. split; [reflexivity|].
  split.
  - rewrite lookup_insert_eq. eexists. split; [reflexivity|]. split; reflexivity.
  - eexists. split; [reflexivity|]. exact M.
Qed.

Lemma missing_document_is_initialised_once_witness :
  let ref : DocumentReference := "balances/user"%string in
  let w : World float := (initialState, emptyStore) in
  exists w1,
    onSnapshot_next ref None true w = Some w1 /\
    userBalance (fst w1) = {| fiat := 1000; coin := 0 |} /\
    requests (snd w1) = requests (snd w) ++ [SetDoc ref (balance_document 1000 0)] /\
    (exists w2,
       onSnapshot_next ref (documents (snd w1) !! ref) true w1 = Some w2 /\
       userBalance (fst w2) = {| fiat := 1000; coin := 0 |} /\
       snd w2 = snd w1) /\
    (exists w1',
       onSnapshot_next ref None false w = Some w1' /\
       documents (snd w1') !! ref = None).
Proof.
  intros ref w.
  apply (missing_document_is_initialised_once ref true w).
  reflexivity.
Defined.

End StoredNumbers.

(** ** Boundaries of the handlers, on JavaScript numbers *)

Module Boundaries.
Import Ledger FloatFacts SpecFloatSigns FloatSigns.

Local Open Scope float_scope.

Lemma shl_align_same (m : positive) (e : Z) : shl_align m e e = (m, e).
Proof. unfold shl_align. now rewrite Z.sub_diag. Qed.

(** Subtracting a finite number from one equal to it gives a zero. *)
Lemma SFsub_equal (x y : spec_float) :
  sf_finite x = true -> SFeqb x y = true ->
  exists s, SFsub prec emax x y = S754_zero s.
Proof.
  unfold SFeqb.
  destruct x as [[]|[]| |[] mx ex]; destruct y as [[]|[]| |[] my ey];
    simpl; try discriminate; eauto; intros _;
    destruct (Z.compare_spec ex ey) as [E|E|E]; try discriminate; subst ey;
    rewrite Pos.compare_cont_spec; simpl;
    destruct (Pos.compare_spec mx my) as [M|M|M]; try discriminate; subst my;
    intros _; rewrite Z.min_id, shl_align_same; simpl fst; unfold cond_Zopp;
    rewrite Z.sub_diag; simpl; eauto.
Qed.

Lemma sub_equal_zero (x y : float) :
  PrimFloat.is_finite x = true -> (x =? y) = true -> (x - y =? 0) = true.
Proof.
  intros F E. apply is_finite_spec in F. rewrite FloatAxioms.eqb_spec in E.
  destruct (SFsub_equal _ _ F E) as [s Hs].
  rewrite FloatAxioms.eqb_spec, FloatAxioms.sub_spec.
  unfold SF64sub. rewrite Hs. now destruct s.
Qed.

(** X8. Spending everything leaves exactly zero. When the amount of a Buy
    equals a finite fiat balance, the Buy is accepted and the new fiat is 0;
    when the coins of a Sell equal a finite coin balance, the Sell is
    accepted and the new coin is 0. *)
Theorem spending_all_leaves_zero (price : float) (b : Balance float) (amount : float) :
  (0 <? amount) = true ->
  (PrimFloat.is_finite (fiat b) = true -> (fiat b =? amount) = true ->
   exists b', accepted (handleBuy price b amount) = Some b' /\ (fiat b' =? 0) = true) /\
  (PrimFloat.is_finite (coin b) = true -> (coin b =? amount / price) = true ->
   exists b', accepted (handleSell price b amount) = Some b' /\ (coin b' =? 0) = true).
Proof.
  intros P. rewrite positive_iff_valid in P. apply negb_true_iff in P.
  assert (G : ((amount <=? @num_of_Z float _ 0)%js || isNaN amount) = false) by exact P.
  split; intros F E.
  - unfold handleBuy. rewrite G. simpl. rewrite (eqb_not_ltb _ _ E). simpl.
    eexists. split; [reflexivity|]. simpl. now apply sub_equal_zero.
  - unfold handleSell. rewrite G. simpl. rewrite (eqb_not_ltb _ _ E). simpl.
    eexists. split; [reflexivity|]. simpl. now apply sub_equal_zero.
Qed.

Lemma spending_all_leaves_zero_witness :
  (exists b', accepted (handleBuy 68500 {| fiat := 500; coin := 1 |} 500) = Some b' /\
              (fiat b' =? 0) = true) /\
  (exists b', accepted (handleSell 68500 {| fiat := 0; coin := 500 / 68500 |} 500) = Some b' /\
              (coin b' =? 0) = true).
Proof.
  split.
  - apply (spending_all_leaves_zero 68500 {| fiat := 500; coin := 1 |} 500); reflexivity.
  - apply (spending_all_leaves_zero 68500 {| fiat := 0; coin := 500 / 68500 |} 500);
      reflexivity.
Defined.

(** X9. Withdraw is all or nothing and cannot be repeated: with a minimum
    > 0, once a Withdraw is accepted, a Withdraw on the resulting balance is
    rejected with BelowMinimum, whatever the amounts. *)
Theorem second_withdraw_is_rejected (price minWithdrawal : float) (b b' : Balance float)
    (amount amount' : float) :
  (0 <? minWithdrawal) = true ->
  accepted (apply price minWithdrawal b Withdraw amount) = Some b' ->
  rejection (apply price minWithdrawal b' Withdraw amount') = Some BelowMinimum.
Proof.
  intros P. simpl. unfold handleWithdraw.
  destruct (coin b <? minWithdrawal)%js; [discriminate|].
  simpl. intros [= <-]. simpl.
  change ((@num_of_Z float _ 0 <? minWithdrawal)%js) with (0 <? minWithdrawal).
  now rewrite P.
Qed.

Lemma second_withdraw_is_rejected_witness :
  rejection (apply 68500 100 {| fiat := 0; coin := 0 |} Withdraw 10) = Some BelowMinimum.
Proof.
  apply (second_withdraw_is_rejected 68500 100 {| fiat := 0; coin := 150 |}
           {| fiat := 0; coin := 0 |} 10 10); reflexivity.
Defined.

End Boundaries.

(** ** Invariants of the reachable worlds *)

Module Invariants.
Import Ledger TradeSession Component StoreRules.

Section Reachable.
Context {num : Type} `{NumberOps num}.
Variable appId : string.

Local Abbreviation PRICE := (@SIMULATED_COIN_PRICE num _).
Local Abbreviation MINIMUM := (@MIN_WITHDRAWAL_AMOUNT num _).

Lemma ready_nonempty (st : State num) (uid : string) :
  ready st = Some uid ->
  uid <> EmptyString /\ db st <> None /\ userId st = Some uid.
Proof.
  unfold ready. destruct (db st); [|discriminate].
  destruct (userId st) as [u|]; [|discriminate].
  destruct (String.eqb u EmptyString) eqn:E; [discriminate|].
  intros [= <-]. apply String.eqb_neq in E. auto.
Qed.

Lemma subscription_ready (st : State num) (ref : DocumentReference) :
  subscription appId st = Some ref ->
  exists uid, ready st = Some uid /\ ref = balanceDocRef appId uid.
Proof.
  unfold subscription. destruct (ready st) as [uid|]; [|discriminate].
  destruct (isAuthReady st); [|discriminate]. intros [= <-]. eauto.
Qed.

Lemma onSnapshot_next_identity (ref : DocumentReference)
    (docSnap : option (DocumentData num)) (resolves : bool) (w w' : World num) :
  onSnapshot_next ref docSnap resolves w = Some w' ->
  db (fst w') = db (fst w) /\ userId (fst w') = userId (fst w) /\
  isAuthReady (fst w') = isAuthReady (fst w).
Proof.
  destruct w as [st store]. unfold onSnapshot_next.
  destruct docSnap as [data|].
  - destruct (as_number _); [|discriminate]. destruct (as_number _); [|discriminate].
    intros [= <-]. auto.
  - intros [= <-]. auto.
Qed.

Lemma onClick_fields (type : ModalType) (amount : num) (resolves : bool) (w : World num) :
  let st' := fst (onClick appId type amount resolves w) in
  userBalance st' = userBalance (fst w) /\
  db st' = db (fst w) /\ userId st' = userId (fst w) /\
  isAuthReady st' = isAuthReady (fst w).
Proof.
  unfold onClick. destruct (actionDisabled type (fst w)); [simpl; auto|].
  unfold actionHandler.
  destruct type; simpl;
    match goal with
    | |- context [execute appId ?i resolves w] =>
        destruct (execute_fields appId i resolves w) as (B & _ & D & U & A)
    end; auto.
Qed.

(** The store after a click is the store after some [execute], or unchanged. *)
Lemma onClick_store (type : ModalType) (amount : num) (resolves : bool) (w : World num) :
  snd (onClick appId type amount resolves w) = snd w \/
  snd (onClick appId type amount resolves w) =
    snd (execute appId (intent_of type) resolves w).
Proof.
  unfold onClick. destruct (actionDisabled type (fst w)); [auto|].
  right. destruct type; reflexivity.
Qed.

(** Once a user id is set, authentication is marked ready. *)
Lemma reachable_signed_in (w : World num) :
  reachable appId w -> userId (fst w) <> None -> isAuthReady (fst w) = true.
Proof.
  induction 1 as [|w e w' R IH S]; [simpl; congruence|].
  destruct e; simpl in S.
  - injection S as <-. simpl. unfold initializeFirebase.
    destruct firebaseConfig; exact IH.
  - injection S as <-. reflexivity.
  - destruct (subscription appId (fst w)); [|discriminate].
    apply onSnapshot_next_identity in S as (_ & -> & ->). exact IH.
  - destruct (subscription appId (fst w)); [|discriminate].
    injection S as <-. exact IH.
  - injection S as <-. exact IH.
  - injection S as <-. exact IH.
  - destruct (modal (fst w)); [|discriminate].
    destruct (ModalType_eqb _ _); [|discriminate]. injection S as <-.
    destruct (onClick_fields type amount resolves w) as (_ & _ & -> & ->). exact IH.
Qed.

(** X10. In every reachable world, whenever a trade can write ([db] and a
    non-empty [userId] are set), [isAuthReady] is set as well, so the
    listener effect passes its guard and the document it subscribes to is
    the very document the trade writes. This says nothing of a listener that
    has failed since: the component does not subscribe again. *)
Theorem reachable_ready_has_same_target (w : World num) (uid : string) :
  reachable appId w -> ready (fst w) = Some uid ->
  subscription appId (fst w) = Some (balanceDocRef appId uid).
Proof.
  intros R Rd. unfold subscription. rewrite Rd.
  apply ready_nonempty in Rd as (_ & _ & U).
  rewrite (reachable_signed_in w R); [reflexivity|]. congruence.
Qed.

Lemma store_schema_setDoc (ref : DocumentReference) (data : DocumentData num)
    (resolves : bool) (s : Store num) :
  balance_write appId ref data -> store_schema appId s ->
  store_schema appId (setDoc ref data resolves s).
Proof.
  intros W [Rq Dc]. split; simpl.
  - intros ref' data' I. apply in_app_iff in I as [I|[I|[]]]; [eauto|].
    injection I as <- <-. exact W.
  - intros ref' data'. destruct resolves; [|apply Dc].
    destruct (decide (ref = ref')) as [<-|N].
    + rewrite lookup_insert_eq. intros [= <-]. exact W.
    + rewrite lookup_insert_ne by exact N. apply Dc.
Qed.

Lemma store_schema_execute (intent : Intent) (resolves : bool) (w : World num) :
  store_schema appId (snd w) ->
  store_schema appId (snd (execute appId intent resolves w)).
Proof.
  intros S. unfold execute.
  destruct (apply PRICE MINIMUM (userBalance (fst w)) intent (tradeAmount (fst w)))
    as [m|f c m]; simpl; [exact S|].
  destruct (ready (fst w)) as [uid|] eqn:R.
  - rewrite (updateBalance_ready _ _ _ _ _ _ _ R). simpl.
    apply store_schema_setDoc; [|exact S].
    apply ready_nonempty in R as (N & _). exists uid, f, c. auto.
  - rewrite (SessionRules.updateBalance_not_ready _ _ _ _ _ _ R). exact S.
Qed.

(** X11. The component only ever writes balance documents. In every world
    reached through snapshots whose fiat and coin fields are each a number
    or a falsy value, each request sent and each document written is an
    object with the two fields fiat and coin and no other, at the balance
    path of a non-empty user id under this application id. *)
Theorem reachable_store_schema (w : World num) :
  reachable appId w -> store_schema appId (snd w).
Proof.
  induction 1 as [|w e w' R IH S].
  - split; simpl; [intros ? ? []|]. intros ref data. rewrite lookup_empty. discriminate.
  - destruct e; simpl in S; try (injection S as <-; exact IH).
    + destruct (subscription appId (fst w)) as [ref|] eqn:Sub; [|discriminate].
      apply subscription_ready in Sub as (uid & Rd & ->).
      apply ready_nonempty in Rd as (N & _).
      destruct w as [st store]. simpl in *. destruct docSnap as [data|].
      * destruct (as_number _); [|discriminate]. destruct (as_number _); [|discriminate].
        injection S as <-. exact IH.
      * injection S as <-. simpl. apply store_schema_setDoc; [|exact IH].
        exists uid, (num_of_Z 1000), (num_of_Z 0). auto.
    + destruct (subscription appId (fst w)); [|discriminate]. injection S as <-. exact IH.
    + destruct (modal (fst w)); [|discriminate].
      destruct (ModalType_eqb _ _); [|discriminate]. injection S as <-.
      destruct (onClick_store type amount resolves w) as [-> | ->]; [exact IH|].
      now apply store_schema_execute.
Qed.

Lemma run_events_reachable (es : list (Event num)) (w w' : World num) :
  reachable appId w -> run_events appId es w = Some w' -> reachable appId w'.
Proof.
  revert w. induction es as [|e es IH]; intros w R; simpl.
  - now intros [= <-].
  - destruct (step appId e w) as [w1|] eqn:S; [|discriminate].
    apply IH. now apply reachable_step with w e.
Qed.

End Reachable.

Lemma reachable_ready_has_same_target_witness :
  exists w : World float,
    run_events "trade-coin-app-id"
      [FirebaseInitialized true; AuthStateChanged (Some "u1"%string)]
      (initialState, emptyStore) = Some w /\
    subscription "trade-coin-app-id" (fst w) =
      Some (balanceDocRef "trade-coin-app-id" "u1").
Proof.
  eexists. split; [reflexivity|].
  apply (reachable_ready_has_same_target "trade-coin-app-id").
  - apply (run_events_reachable "trade-coin-app-id"
           [FirebaseInitialized true; AuthStateChanged (Some "u1"%string)]
           (initialState, emptyStore));
    [apply reachable_initial|reflexivity].
  - reflexivity.
Defined.

Lemma reachable_store_schema_witness :
  exists w : World float,
    run_events "trade-coin-app-id"
      [FirebaseInitialized true; AuthStateChanged (Some "u1"%string);
       Snapshot None true; OpenModal buy; Click buy 100%float true]
      (initialState, emptyStore) = Some w /\
    store_schema "trade-coin-app-id" (snd w).
Proof.
  eexists. split; [reflexivity|].
  apply (reachable_store_schema "trade-coin-app-id").
  apply (run_events_reachable "trade-coin-app-id"
           [FirebaseInitialized true; AuthStateChanged (Some "u1"%string); Snapshot None true; OpenModal buy; Click buy 100%float true]
           (initialState, emptyStore));
    [apply reachable_initial|reflexivity].
Defined.

End Invariants.

(** ** Invariants of the balance, on JavaScript numbers *)

Module BalanceInvariants.
Import Ledger TradeSession Component StoreRules Invariants.
Import FloatFacts SpecFloatSigns FloatSigns StoredNumbers.

Local Open Scope float_scope.

Lemma is_nan_case (x : float) :
  PrimFloat.is_nan x = match Prim2SF x with S754_nan => true | _ => false end.
Proof.
  destruct (PrimFloat.is_nan x) eqn:N.
  - apply is_nan_spec in N. now rewrite N.
  - apply is_nan_false in N. destruct (Prim2SF x); congruence.
Qed.

Lemma nonneg_or_nan_spec (x : float) :
  nonneg_or_nan x = sf_nonneg_or_nan (Prim2SF x).
Proof. unfold nonneg_or_nan. now rewrite leb_zero_spec, is_nan_case. Qed.

Lemma SFsub_nonneg_or_nan (x y : spec_float) :
  valid_binary x = true -> valid_binary y = true ->
  sf_nonneg x = true -> sf_nonneg y = true -> SFltb x y = false ->
  sf_nonneg_or_nan (SFsub prec emax x y) = true.
Proof.
  destruct x as [[]|[]| |[] mx ex]; destruct y as [[]|[]| |[] my ey];
    try discriminate; try reflexivity; intros Vx Vy _ _ Hlt.
  unfold sf_nonneg_or_nan. apply orb_true_iff. left.
  unfold SFsub, cond_Zopp. apply binary_normalize_nonneg.
  now apply aligned_difference_nonneg.
Qed.

Lemma sub_nonneg_or_nan (x y : float) :
  (0 <=? x) = true -> (0 <=? y) = true -> (x <? y) = false ->
  nonneg_or_nan (x - y) = true.
Proof.
  intros X Y L. rewrite nonneg_or_nan_spec, FloatAxioms.sub_spec.
  rewrite leb_zero_spec in X, Y. rewrite FloatAxioms.ltb_spec in L.
  apply SFsub_nonneg_or_nan; auto using Prim2SF_valid.
Qed.

Lemma nonneg_is_nonneg_or_nan (x : float) :
  (0 <=? x) = true -> nonneg_or_nan x = true.
Proof. unfold nonneg_or_nan. now intros ->. Qed.

(** From a balance >= 0 and at a finite price > 0, every accepted balance
    has fields that are >= 0 or NaN. *)
Lemma accepted_nonneg_or_nan_at (price minWithdrawal : float) (b b' : Balance float)
    (intent : Intent) (amount : float) :
  (0 <? price) = true -> PrimFloat.is_finite price = true ->
  nonneg_balance b = true ->
  accepted (apply price minWithdrawal b intent amount) = Some b' ->
  nonneg_or_nan (fiat b') = true /\ nonneg_or_nan (coin b') = true.
Proof.
  intros Pp Fp Nb. apply andb_true_iff in Nb as [Nf Nc].
  destruct intent; simpl apply.
  - unfold handleSimulatedDeposit.
    destruct ((amount <=? num_of_Z 0)%js || isNaN amount) eqn:G; [discriminate|].
    apply NonNegativity.valid_amount_nonneg in G. simpl. intros [= <-]. simpl.
    auto using nonneg_is_nonneg_or_nan, add_nonneg.
  - unfold handleBuy.
    destruct ((amount <=? num_of_Z 0)%js || isNaN amount) eqn:G; [discriminate|].
    apply NonNegativity.valid_amount_nonneg in G. simpl.
    destruct (fiat b <? amount) eqn:L; [discriminate|]. simpl. intros [= <-]. simpl.
    split; [now apply sub_nonneg_or_nan|].
    apply nonneg_is_nonneg_or_nan, add_nonneg; auto using div_nonneg.
  - unfold handleSell.
    destruct ((amount <=? num_of_Z 0)%js || isNaN amount) eqn:G; [discriminate|].
    apply NonNegativity.valid_amount_nonneg in G. simpl.
    destruct (coin b <? amount / price) eqn:L; [discriminate|].
    simpl. intros [= <-]. simpl.
    split; [auto using nonneg_is_nonneg_or_nan, add_nonneg|].
    apply sub_nonneg_or_nan; auto using div_nonneg.
  - unfold handleWithdraw. simpl.
    destruct (coin b <? minWithdrawal); [discriminate|].
    simpl. intros [= <-]. simpl. auto using nonneg_is_nonneg_or_nan.
Qed.

Lemma accepted_nonneg_or_nan (b b' : Balance float) (intent : Intent) (amount : float) :
  nonneg_balance b = true ->
  accepted (apply SIMULATED_COIN_PRICE MIN_WITHDRAWAL_AMOUNT b intent amount) = Some b' ->
  nonneg_or_nan (fiat b') = true /\ nonneg_or_nan (coin b') = true.
Proof. apply accepted_nonneg_or_nan_at; reflexivity. Qed.

(** What a snapshot loads is never NaN. *)
Lemma snapshot_never_nan (ref : DocumentReference) (docSnap : option (DocumentData float))
    (resolves : bool) (w w' : World float) :
  onSnapshot_next ref docSnap resolves w = Some w' ->
  PrimFloat.is_nan (fiat (userBalance (fst w'))) = false /\
  PrimFloat.is_nan (coin (userBalance (fst w'))) = false.
Proof.
  assert (L : forall v y,
            as_number (LogicalOr v (JSNumber (@num_of_Z float _ 0))) = Some y ->
            PrimFloat.is_nan y = false).
  { intros v y. unfold LogicalOr. destruct (ToBoolean v) eqn:T.
    - destruct v; try discriminate. intros [= <-].
      rewrite ToBoolean_number in T. apply negb_true_iff, orb_false_iff in T. tauto.
    - intros [= <-]. reflexivity. }
  destruct w as [st store]. unfold onSnapshot_next. destruct docSnap as [data|].
  - destruct (as_number (LogicalOr (field data "fiat") _)) as [f|] eqn:Lf; [|discriminate].
    destruct (as_number (LogicalOr (field data "coin") _)) as [c|] eqn:Lc; [|discriminate].
    intros [= <-]. simpl. eauto.
  - intros [= <-]. split; reflexivity.
Qed.

Section Reachable.
Variable appId : string.

(** X12. The balance on screen is never NaN. In every world reached through
    snapshots whose fiat and coin fields are each a number or a falsy value,
    whatever those numbers were and whatever amounts were typed, fiat and
    coin of [userBalance] are numbers other than NaN: a NaN in the document
    is loaded as 0. *)
Theorem reachable_balance_never_nan (w : World float) :
  reachable appId w ->
  PrimFloat.is_nan (fiat (userBalance (fst w))) = false /\
  PrimFloat.is_nan (coin (userBalance (fst w))) = false.
Proof.
  induction 1 as [|w e w' R IH S]; [split; reflexivity|].
  destruct e; cbn [step] in S.
  - injection S as <-. simpl. unfold initializeFirebase.
    destruct firebaseConfig; exact IH.
  - injection S as <-. destruct user; exact IH.
  - destruct (subscription appId (fst w)); [|discriminate].
    now apply snapshot_never_nan in S.
  - destruct (subscription appId (fst w)); [|discriminate]. injection S as <-. exact IH.
  - injection S as <-. exact IH.
  - injection S as <-. exact IH.
  - destruct (modal (fst w)); [|discriminate].
    destruct (ModalType_eqb _ _); [|discriminate]. injection S as <-.
    destruct (onClick_fields appId type amount resolves w) as (-> & _). exact IH.
Qed.

Lemma stored_setDoc (ref : DocumentReference) (f c : float) (resolves : bool)
    (s : Store float) :
  nonneg_or_nan f = true -> nonneg_or_nan c = true ->
  stored_nonneg_or_nan s ->
  stored_nonneg_or_nan (setDoc ref (balance_document f c) resolves s).
Proof.
  intros Hf Hc S ref' data. simpl. destruct resolves; [|apply S].
  destruct (decide (ref = ref')) as [<-|N].
  - rewrite lookup_insert_eq. intros [= <-]. eauto.
  - rewrite lookup_insert_ne by exact N. apply S.
Qed.

Lemma stored_execute (intent : Intent) (resolves : bool) (w : World float) :
  nonneg_balance (userBalance (fst w)) = true ->
  stored_nonneg_or_nan (snd w) ->
  stored_nonneg_or_nan (snd (execute appId intent resolves w)).
Proof.
  intros Nb S. unfold execute.
  destruct (apply SIMULATED_COIN_PRICE MIN_WITHDRAWAL_AMOUNT (userBalance (fst w)) intent
              (tradeAmount (fst w))) as [m|f c m] eqn:A; simpl; [exact S|].
  destruct (ready (fst w)) as [uid|] eqn:R.
  - rewrite (updateBalance_ready _ _ _ _ _ _ _ R). simpl.
    destruct (accepted_nonneg_or_nan (userBalance (fst w)) {| fiat := f; coin := c |}
                intent (tradeAmount (fst w)) Nb) as [Hf Hc]; [now rewrite A|].
    now apply stored_setDoc.
  - rewrite (SessionRules.updateBalance_not_ready _ _ _ _ _ _ R). exact S.
Qed.

(** X13. When this client is the only writer, the balance on screen is
    always >= 0: in every world reached with snapshots that carry what the
    store holds, fiat and coin of [userBalance] are >= 0, and every stored
    field is >= 0 or NaN (a stored NaN is loaded as 0). *)
Theorem alone_balance_nonneg (w : World float) :
  reachable_alone appId w ->
  nonneg_balance (userBalance (fst w)) = true /\ stored_nonneg_or_nan (snd w).
Proof.
  induction 1 as [|w e w' R [Nb St] F S].
  - split; [reflexivity|]. intros ref data. simpl. rewrite lookup_empty. discriminate.
  - destruct e; cbn [step] in S.
    + injection S as <-. simpl. unfold initializeFirebase.
      destruct firebaseConfig; split; assumption.
    + injection S as <-. destruct user; split; assumption.
    + destruct (subscription appId (fst w)) as [ref|] eqn:Sub; [|discriminate].
      simpl in F. specialize (F ref Sub). subst docSnap.
      destruct w as [st store]. simpl in *.
      destruct (documents store !! ref) as [data|] eqn:D.
      * destruct (St ref data D) as (f & c & -> & Hf & Hc).
        rewrite balance_document_fiat, balance_document_coin in S.
        destruct (as_number (LogicalOr (JSNumber f) _)) as [f'|] eqn:Lf; [|discriminate].
        destruct (as_number (LogicalOr (JSNumber c) _)) as [c'|] eqn:Lc; [|discriminate].
        injection S as <-. simpl. split; [|exact St].
        unfold nonneg_balance. simpl.
        now rewrite (load_nonneg_or_nan f f' Hf Lf), (load_nonneg_or_nan c c' Hc Lc).
      * injection S as <-. simpl. split; [reflexivity|].
        now apply stored_setDoc.
    + destruct (subscription appId (fst w)); [|discriminate].
      injection S as <-. split; assumption.
    + injection S as <-. split; assumption.
    + injection S as <-. split; assumption.
    + destruct (modal (fst w)); [|discriminate].
      destruct (ModalType_eqb _ _); [|discriminate]. injection S as <-.
      destruct (onClick_fields appId type amount resolves w) as (-> & _).
      split; [exact Nb|].
      destruct (onClick_store appId type amount resolves w) as [-> | ->]; [exact St|].
      now apply stored_execute.
Qed.

End Reachable.

Lemma reachable_balance_never_nan_witness :
  exists w : World float,
    run_events "trade-coin-app-id"
      [FirebaseInitialized true; AuthStateChanged (Some "u1"%string);
       Snapshot (Some (balance_document nan 5)) true]
      (initialState, emptyStore) = Some w /\
    PrimFloat.is_nan (fiat (userBalance (fst w))) = false /\
    PrimFloat.is_nan (coin (userBalance (fst w))) = false.
Proof.
  eexists. split; [reflexivity|].
  apply (reachable_balance_never_nan "trade-coin-app-id").
  apply (run_events_reachable "trade-coin-app-id"
           [FirebaseInitialized true; AuthStateChanged (Some "u1"%string); Snapshot (Some (balance_document nan 5)) true]
           (initialState, emptyStore));
    [apply reachable_initial|reflexivity].
Defined.

Lemma alone_balance_nonneg_witness :
  exists w : World float,
    run_events "trade-coin-app-id"
      [FirebaseInitialized true; AuthStateChanged (Some "u1"%string); Snapshot None true]
      (initialState, emptyStore) = Some w /\
    nonneg_balance (userBalance (fst w)) = true /\ stored_nonneg_or_nan (snd w).
Proof.
  eexists. split; [reflexivity|].
  apply (alone_balance_nonneg "trade-coin-app-id").
  eapply alone_step with (e := Snapshot None true);
    [eapply alone_step with (e := AuthStateChanged (Some "u1"%string));
       [eapply alone_step with (e := FirebaseInitialized true);
          [apply alone_initial|exact I|reflexivity]
       |exact I|reflexivity]
    | |reflexivity].
  intros ref [= <-]. reflexivity.
Defined.

End BalanceInvariants.

(** ** The modal's action button *)

Module ModalRules.
Import Ledger TradeSession Component StoreRules.

Section Modal.
Context {num : Type} `{NumberOps num}.
Variable appId : string.

Local Abbreviation PRICE := (@SIMULATED_COIN_PRICE num _).
Local Abbreviation MINIMUM := (@MIN_WITHDRAWAL_AMOUNT num _).

(** X14. The amount typed in the modal is not the amount traded. For
    deposit, buy and sell the action runs the handler on the [tradeAmount]
    stored before the click; the typed amount only replaces [tradeAmount]
    afterwards, so two clicks that differ in the typed amount have the same
    effect on the store, and the typed amount is what the next click trades. *)
Theorem typed_amount_is_traded_by_next_click (type : ModalType) (a1 a2 a' : num)
    (r1 r2 : bool) (w : World num) :
  type <> withdraw ->
  let w1 := actionHandler appId type a1 r1 w in
  snd w1 =
    snd (run appId (apply PRICE MINIMUM (userBalance (fst w)) (intent_of type)
                      (tradeAmount (fst w))) r1 w) /\
  snd w1 = snd (actionHandler appId type a' r1 w) /\
  fst (actionHandler appId type a' r1 w) = setTradeAmount a' (fst w1) /\
  tradeAmount (fst w1) = a1 /\
  snd (actionHandler appId type a2 r2 w1) =
    snd (run appId (apply PRICE MINIMUM (userBalance (fst w)) (intent_of type) a1) r2 w1).
Proof.
  intros N w1.
  assert (E : forall a, actionHandler appId type a r1 w =
                        (setTradeAmount a (fst (execute appId (intent_of type) r1 w)),
                         snd (execute appId (intent_of type) r1 w)))
    by (intros a; destruct type; congruence || reflexivity).
  assert (E2 : actionHandler appId type a2 r2 w1 =
               (setTradeAmount a2 (fst (execute appId (intent_of type) r2 w1)),
                snd (execute appId (intent_of type) r2 w1)))
    by (destruct type; congruence || reflexivity).
  subst w1. rewrite E2, !E. simpl.
  destruct (execute_fields appId (intent_of type) r1 w) as (B & _).
  repeat split. unfold execute at 1. simpl. now rewrite B.
Qed.

(** X15. The withdraw button is gated like the handler: when [handleWithdraw]
    would reject the balance (coin below the minimum) the button is disabled
    and a click changes nothing, so the "Withdrawal failed" message is never
    produced by a click; and whenever the withdraw button is enabled, the
    click's Withdraw is accepted. While [isLoading] is set no button acts. *)
Theorem withdraw_button_gating (amount : num) (resolves : bool) (w : World num) :
  (rejection (apply PRICE MINIMUM (userBalance (fst w)) Withdraw (tradeAmount (fst w)))
     = Some BelowMinimum ->
   onClick appId withdraw amount resolves w = w) /\
  (actionDisabled withdraw (fst w) = false ->
   exists b', accepted (apply PRICE MINIMUM (userBalance (fst w)) Withdraw
                          (tradeAmount (fst w))) = Some b' /\
              onClick appId withdraw amount resolves w = execute appId Withdraw resolves w) /\
  (isLoading (fst w) = true ->
   forall type, onClick appId type amount resolves w = w).
Proof.
  unfold onClick, actionDisabled. simpl apply. unfold handleWithdraw.
  split; [|split].
  - destruct (coin (userBalance (fst w)) <? MINIMUM)%js; [|discriminate].
    intros _. now rewrite orb_true_r.
  - intros D. rewrite D. apply orb_false_iff in D as [_ ->]. simpl. eauto.
  - intros ->. reflexivity.
Qed.

End Modal.

Local Open Scope float_scope.

Lemma typed_amount_is_traded_by_next_click_witness :
  let w : World float :=
    (setUserId (Some "u1"%string) (setDb (Some firestore) initialState), emptyStore) in
  let w1 := actionHandler "trade-coin-app-id" buy 500 true w in
  snd w1 =
    snd (run "trade-coin-app-id"
           (apply SIMULATED_COIN_PRICE MIN_WITHDRAWAL_AMOUNT (userBalance (fst w)) Buy
              (tradeAmount (fst w))) true w) /\
  snd w1 = snd (actionHandler "trade-coin-app-id" buy 7 true w) /\
  fst (actionHandler "trade-coin-app-id" buy 7 true w) = setTradeAmount 7 (fst w1) /\
  tradeAmount (fst w1) = 500 /\
  snd (actionHandler "trade-coin-app-id" buy 20 true w1) =
    snd (run "trade-coin-app-id"
           (apply SIMULATED_COIN_PRICE MIN_WITHDRAWAL_AMOUNT (userBalance (fst w)) Buy 500)
           true w1).
Proof.
  intros w.
  apply (typed_amount_is_traded_by_next_click "trade-coin-app-id" buy 500 20 7 true true w).
  discriminate.
Defined.

Lemma withdraw_button_gating_witness :
  let w : World float := (initialState, emptyStore) in
  onClick "trade-coin-app-id" withdraw 100 true w = w.
Proof.
  intros w.
  destruct (withdraw_button_gating "trade-coin-app-id" 100 true w) as [G _].
  apply G. reflexivity.
Defined.

End ModalRules.

(** ** The placeholder address *)

Module WalletRules.
Import Wallet StringFacts.

Lemma append_empty (s : string) : String.append s EmptyString = s.
Proof. induction s as [|c s IH]; [reflexivity|]. now rewrite append_cons, IH. Qed.

Lemma append_assoc (s1 s2 s3 : string) :
  String.append (String.append s1 s2) s3 = String.append s1 (String.append s2 s3).
Proof. induction s1 as [|c s1 IH]; [reflexivity|]. now rewrite !append_cons, IH. Qed.

Lemma chars_of_append (s1 s2 : string) :
  String.list_ascii_of_string (String.append s1 s2) =
  String.list_ascii_of_string s1 ++ String.list_ascii_of_string s2.
Proof.
  induction s1 as [|c s1 IH]; [reflexivity|].
  rewrite append_cons. simpl. now rewrite IH.
Qed.

Lemma get_in_range (s : string) (i : nat) :
  i < String.length s -> exists c, String.get i s = Some c.
Proof.
  revert i. induction s as [|c s IH]; intros i L; simpl in *; [lia|].
  destruct i as [|i]; [eauto|]. apply IH. lia.
Qed.

Lemma get_member (s : string) (i : nat) (c : Ascii.ascii) :
  String.get i s = Some c -> In c (String.list_ascii_of_string s).
Proof.
  revert i. induction s as [|c' s IH]; intros i; simpl; [discriminate|].
  destruct i as [|i]; [intros [= ->]; auto|]. intros G. right. eauto.
Qed.

Lemma charAt_length (s : string) (i : nat) :
  String.length (charAt s i) <= 1 /\
  (i < String.length s -> String.length (charAt s i) = 1).
Proof.
  unfold charAt. split.
  - destruct (String.get i s); simpl; lia.
  - intros L. destruct (get_in_range s i L) as [c ->]. reflexivity.
Qed.

Lemma charAt_member (s : string) (i : nat) (c : Ascii.ascii) :
  In c (String.list_ascii_of_string (charAt s i)) -> In c (String.list_ascii_of_string s).
Proof.
  unfold charAt. destruct (String.get i s) as [c'|] eqn:G; simpl; [|tauto].
  intros [<-|[]]. eauto using get_member.
Qed.

(** The loop, from any address built so far. *)
Lemma loop_format (draw : nat -> nat) (l : list nat) : forall address : string,
  let result :=
    fold_left (fun address i => String.append address (charAt chars (draw i))) l address in
  (exists suffix, result = String.append address suffix) /\
  String.length result <= String.length address + length l /\
  (forall c, In c (String.list_ascii_of_string result) ->
             In c (String.list_ascii_of_string address) \/ In c (String.list_ascii_of_string chars)) /\
  ((forall i, In i l -> draw i < String.length chars) ->
   String.length result = String.length address + length l).
Proof.
  induction l as [|i l IH]; intros address; simpl.
  - split; [exists EmptyString; now rewrite append_empty|].
    split; [lia|]. split; [auto|]. intros _. lia.
  - destruct (IH (String.append address (charAt chars (draw i))))
      as ((suffix & E) & L & M & F).
    destruct (charAt_length chars (draw i)) as [L1 F1].
    rewrite length_append in L, F.
    split; [|split; [|split]].
    + exists (String.append (charAt chars (draw i)) suffix). rewrite E.
      apply append_assoc.
    + lia.
    + intros c I. apply M in I as [I|I]; [|auto].
      rewrite chars_of_append in I. apply in_app_iff in I as [I|I]; [auto|].
      right. exact (charAt_member _ _ _ I).
    + intros B. rewrite F by auto. rewrite F1 by auto. lia.
Qed.

Lemma chars_alphabet (c : Ascii.ascii) :
  In c (String.list_ascii_of_string chars) ->
  c <> "0"%char /\ c <> "O"%char /\ c <> "I"%char /\ c <> "l"%char.
Proof.
  simpl. intros I.
  repeat (destruct I as [<-|I]; [repeat split; discriminate|]).
  destruct I.
Qed.

(** X16. The placeholder address looks like a Base58 address whatever the
    random draws are: it starts with '1', has at most 34 characters, and each
    character is one of the 58 of [chars], so it never contains 0, O, I or l.
    When every draw is an index into [chars] (below 58), it has exactly 34
    characters. *)
Theorem placeholder_address_format (draw : nat -> nat) :
  String.length chars = 58 /\
  (exists rest, generatePlaceholderAddress draw = String "1" rest) /\
  String.length (generatePlaceholderAddress draw) <= 34 /\
  (forall c, In c (String.list_ascii_of_string (generatePlaceholderAddress draw)) ->
     In c (String.list_ascii_of_string chars) /\
     c <> "0"%char /\ c <> "O"%char /\ c <> "I"%char /\ c <> "l"%char) /\
  ((forall i, i < 33 -> draw i < 58) ->
   String.length (generatePlaceholderAddress draw) = 34).
Proof.
  unfold generatePlaceholderAddress.
  destruct (loop_format draw (seq 0 33) "1"%string) as ((suffix & E) & L & M & F).
  split; [reflexivity|]. split; [rewrite E; simpl; eauto|].
  split; [exact L|]. split.
  - intros c I. assert (I' : In c (String.list_ascii_of_string chars)).
    { apply M in I as [[<-|[]]|I]; [simpl; auto|exact I]. }
    split; [exact I'|]. now apply chars_alphabet.
  - intros B. apply F. intros i I. apply in_seq in I. apply B. lia.
Qed.

Lemma placeholder_address_format_witness :
  String.length (generatePlaceholderAddress (fun i => 57 - i)) = 34.
Proof.
  apply (placeholder_address_format (fun i => 57 - i)).
  intros i L. lia.
Defined.

End WalletRules.

(** ** Amounts without a bound *)

Module UnboundedAmounts.
Import Ledger FloatFacts FloatSigns.

Local Open Scope float_scope.

Lemma Prim2SF_infinity : Prim2SF infinity = S754_infinity false.
Proof. reflexivity. Qed.

Lemma finite_below_infinity (x : float) :
  PrimFloat.is_finite x = true -> (x <? infinity) = true.
Proof.
  intros F. apply is_finite_spec in F.
  rewrite FloatAxioms.ltb_spec, Prim2SF_infinity.
  destruct (Prim2SF x) as [[]|[]| |[] m e]; try discriminate; reflexivity.
Qed.

Lemma finite_plus_infinity (x : float) :
  PrimFloat.is_finite x = true -> x + infinity = infinity.
Proof.
  intros F. apply is_finite_spec in F. apply Prim2SF_inj.
  rewrite FloatAxioms.add_spec, Prim2SF_infinity.
  destruct (Prim2SF x) as [[]|[]| |[] m e]; try discriminate; reflexivity.
Qed.

Lemma infinity_over_price (p : float) :
  (0 <? p) = true -> PrimFloat.is_finite p = true -> infinity / p = infinity.
Proof.
  intros P F. destruct (positive_finite_spec p P F) as (m & e & Hp).
  apply Prim2SF_inj. now rewrite FloatAxioms.div_spec, Prim2SF_infinity, Hp.
Qed.

(** X18. [Infinity] passes the amount check. On a finite balance and at a
    finite price > 0: Deposit(Infinity) is accepted and makes the fiat
    balance [Infinity], with the coin balance unchanged, while Buy(Infinity)
    is rejected with InsufficientFiat and Sell(Infinity) with
    InsufficientCoin. *)
Theorem infinite_amount (price : float) (b : Balance float) :
  (0 <? price) = true -> PrimFloat.is_finite price = true ->
  finite_balance b = true ->
  handleSimulatedDeposit b infinity =
    UpdateBalance infinity (coin b) (DepositSuccessful infinity infinity) /\
  rejection (handleBuy price b infinity) = Some InsufficientFiat /\
  rejection (handleSell price b infinity) = Some InsufficientCoin.
Proof.
  intros P F Fb. apply andb_true_iff in Fb as [Ff Fc].
  unfold handleSimulatedDeposit, handleBuy, handleSell.
  change ((infinity <=? @num_of_Z float _ 0)%js || isNaN infinity) with false.
  cbv iota. simpl num_add. simpl num_div. simpl num_ltb.
  rewrite (finite_plus_infinity _ Ff), (infinity_over_price _ P F).
  rewrite (finite_below_infinity _ Ff), (finite_below_infinity _ Fc).
  repeat split.
Qed.

Lemma infinite_amount_witness :
  handleSimulatedDeposit {| fiat := 1000; coin := 0 |} infinity =
    UpdateBalance infinity 0 (DepositSuccessful infinity infinity) /\
  rejection (handleBuy 68500 {| fiat := 1000; coin := 0 |} infinity)
    = Some InsufficientFiat /\
  rejection (handleSell 68500 {| fiat := 1000; coin := 0 |} infinity)
    = Some InsufficientCoin.
Proof.
  apply (infinite_amount 68500 {| fiat := 1000; coin := 0 |}); reflexivity.
Defined.

End UnboundedAmounts.

(** ** Sell and then Buy at a fixed price *)

Module ReverseRoundTrip.
Import Ledger FloatFacts FloatSigns FloatRounding FixedPrice.

Local Open Scope float_scope.

(** X17. Sell then Buy, on JavaScript numbers. From a balance whose fiat and
    coin are finite and whose fiat is >= 0, at a finite price p > 0 and for
    an amount a > 0 whose coins a / p the balance holds: Sell(a) is accepted,
    and Buy(a) on the balance b1 it leaves is accepted, leaving b2: the fiat
    received can always be spent back. When b1 and b2 are finite, each field
    of b2 is the field before the Sell up to the rounding of the two
    operations on it, with the bounds of the Buy-then-Sell round trip. *)
Theorem sell_then_buy_round_trip (price minWithdrawal : float)
    (b : Balance float) (a : float) :
  (0 <? price) = true -> PrimFloat.is_finite price = true ->
  finite_balance b = true -> (0 <=? fiat b) = true ->
  (0 <? a) = true -> (a / price <=? coin b) = true ->
  exists b1 b2,
    accepted (apply price minWithdrawal b Sell a) = Some b1 /\
    accepted (apply price minWithdrawal b1 Buy a) = Some b2 /\
    (finite_balance b1 = true -> finite_balance b2 = true ->
       (Qabs (value (fiat b2) - value (fiat b))
          <= rounding (fiat b1) + rounding (fiat b2))%Q /\
       (Qabs (value (coin b2) - value (coin b))
          <= rounding (coin b1) + rounding (coin b2))%Q).
Proof.
  intros Pp Fp Fb Nf Pa La.
  apply andb_true_iff in Fb as [Ff Fc].
  apply leb_not_ltb in La.
  pose proof (positive_nonneg a Pa) as Na.
  pose proof (add_not_below_r (fiat b) a Nf Na) as L2.
  exists {| fiat := fiat b + a; coin := coin b - a / price |}.
  exists {| fiat := fiat b + a - a; coin := coin b - a / price + a / price |}.
  simpl apply. split; [now apply sell_accepts|]. split; [now apply buy_accepts|].
  intros F1 F2.
  apply andb_true_iff in F1 as [Ff1 Fc1]. apply andb_true_iff in F2 as [Ff2 Fc2].
  cbn [fiat coin] in Ff1, Fc1, Ff2, Fc2 |- *.
  destruct (finite_sum _ _ Ff1) as [_ Fa].
  destruct (finite_difference _ _ Fc1) as [_ Fx].
  split.
  - apply (round_trip_bound' _ (value (fiat b + a)) _ (value a)).
    + now apply add_rounding.
    + now apply sub_rounding.
  - apply (round_trip_bound _ (value (coin b - a / price)) _ (value (a / price))).
    + now apply sub_rounding.
    + now apply add_rounding.
Qed.

Lemma sell_then_buy_round_trip_witness :
  exists b1 b2 : Balance float,
    accepted (apply 68500 100 {| fiat := 1000; coin := 1 |} Sell 4) = Some b1 /\
    accepted (apply 68500 100 b1 Buy 4) = Some b2 /\
    (finite_balance b1 = true -> finite_balance b2 = true ->
       (Qabs (value (fiat b2) - value 1000%float)
          <= rounding (fiat b1) + rounding (fiat b2))%Q /\
       (Qabs (value (coin b2) - value 1%float)
          <= rounding (coin b1) + rounding (coin b2))%Q).
Proof.
  apply (sell_then_buy_round_trip 68500 100 {| fiat := 1000; coin := 1 |} 4); reflexivity.
Defined.

End ReverseRoundTrip.

(** ** What the user sees after a trade *)

Module ScreenRules.
Import Ledger TradeSession Component StoreRules.

Section Screen.
Context {num : Type} `{NumberOps num}.
Variable appId : string.

Local Abbreviation PRICE := (@SIMULATED_COIN_PRICE num _).
Local Abbreviation MINIMUM := (@MIN_WITHDRAWAL_AMOUNT num _).

(** X19. What a trade shows. When the handler accepts and [db] and [userId]
    are set, the modal is closed and the busy flag cleared whether the write
    resolved or not, and the message is the handler's success message if it
    resolved and "Transaction failed due to a database error." if not. When
    the handler rejects, only the message changes, to a failure notice, and
    the modal stays as it was. When the handler accepts but [db] or [userId]
    is missing, the state is untouched. *)
Theorem execute_screen_effect (intent : Intent) (resolves : bool) (w : World num) :
  let st' := fst (execute appId intent resolves w) in
  match apply PRICE MINIMUM (userBalance (fst w)) intent (tradeAmount (fst w)),
        ready (fst w) with
  | UpdateBalance _ _ successMessage, Some _ =>
      modal st' = None /\ isLoading st' = false /\
      message st' = (if resolves then successMessage else TransactionFailed) /\
      failure_notice successMessage = false
  | UpdateBalance _ _ _, None => st' = fst w
  | SetMessage m, _ =>
      st' = setMessage m (fst w) /\ failure_notice m = true /\ modal st' = modal (fst w)
  end.
Proof.
  unfold execute.
  destruct (apply PRICE MINIMUM (userBalance (fst w)) intent (tradeAmount (fst w)))
    as [m|f c m] eqn:A; simpl.
  - split; [reflexivity|]. split; [|reflexivity].
    destruct intent; simpl in A;
      unfold handleSimulatedDeposit, handleBuy, handleSell, handleWithdraw in A;
      repeat match type of A with
             | context [if ?c then _ else _] => destruct c
             end;
      try discriminate; injection A as <-; reflexivity.
  - destruct (ready (fst w)) as [uid|] eqn:R.
    + rewrite (updateBalance_ready _ _ _ _ _ _ _ R). simpl.
      split; [reflexivity|]. split; [reflexivity|]. split; [now destruct resolves|].
      destruct intent; simpl in A;
        unfold handleSimulatedDeposit, handleBuy, handleSell, handleWithdraw in A;
        repeat match type of A with
               | context [if ?c then _ else _] => destruct c
               end;
        try discriminate; injection A as <- <- <-; reflexivity.
    + now rewrite (SessionRules.updateBalance_not_ready _ _ _ _ _ _ R).
Qed.

End Screen.

End ScreenRules.

(** ** Numbers the listener does not filter *)

Module UnfilteredNumbers.
Import Ledger TradeSession StoreRules FloatFacts.

Local Open Scope float_scope.

(** X21. The listener filters falsy values only. A stored number other than
    0, -0 and NaN is loaded exactly as stored, so a negative balance or
    [Infinity] in the document becomes the balance on screen. *)
Theorem truthy_numbers_load_unchanged (ref : DocumentReference) (f c : float)
    (resolves : bool) (w : World float) :
  (f =? 0) = false -> PrimFloat.is_nan f = false ->
  (c =? 0) = false -> PrimFloat.is_nan c = false ->
  exists w',
    onSnapshot_next ref (Some (balance_document f c)) resolves w = Some w' /\
    userBalance (fst w') = {| fiat := f; coin := c |} /\
    snd w' = snd w.
Proof.
  intros Zf Nf Zc Nc. eexists. split.
  - apply SessionRules.onSnapshot_next_loads.
    + rewrite balance_document_fiat. unfold LogicalOr.
      change (ToBoolean (JSNumber f)) with (negb ((f =? 0) || PrimFloat.is_nan f)).
      rewrite Zf, Nf. reflexivity.
    + rewrite balance_document_coin. unfold LogicalOr.
      change (ToBoolean (JSNumber c)) with (negb ((c =? 0) || PrimFloat.is_nan c)).
      rewrite Zc, Nc. reflexivity.
  - split; reflexivity.
Qed.

Lemma truthy_numbers_load_unchanged_witness :
  let w : World float := (initialState, emptyStore) in
  exists w',
    onSnapshot_next "balances/user"%string
      (Some (balance_document (-5) infinity)) true w = Some w' /\
    userBalance (fst w') = {| fiat := -5; coin := infinity |} /\
    snd w' = snd w.
Proof.
  intros w.
  apply (truthy_numbers_load_unchanged "balances/user"%string (-5) infinity true w);
    reflexivity.
Defined.

End UnfilteredNumbers.
